(** * Sun-Weverse response objects: [Notification] and [Live]

    A shallow embedding of [sunverse/objects/notification.py] and
    [sunverse/objects/live.py].  Both classes wrap a payload, a [dict] decoded
    from a JSON document, and read fields out of it by subscripting.  The
    embedding models

    - the Python values a decoded JSON document is made of, with the
      behaviour of the operators the two classes apply to them
      ([obj[key]], [dict.get], [==], [in], truthiness, [hash]);
    - the fragment of [re] that [post_id] uses ([re.search] over patterns
      built from character sets, sequencing, greedy [+] and groups);
    - the two classes themselves, with exceptions as an error result.

    Strings are [string]s, read as sequences of code points below 256; on
    that range [\d] matches exactly ['0'..'9'].  JSON numbers are restricted
    to integers. *)

From Stdlib Require Import ZArith Ascii String DecimalString DecimalZ.
From stdpp Require Import gmap strings list fin_maps.

#[local] Set Warnings "-register-all".
#[local] Open Scope string_scope.

(** ** The Python runtime fragment *)

Module Py.

(** The values of a decoded JSON document. *)
Inductive value :=
| VNone
| VBool (b : bool)
| VInt (z : Z)
| VStr (s : string)
| VList (l : list value)
| VDict (m : gmap string value).

(** The exceptions that the modelled code can raise. *)
Inductive exn :=
| KeyError (key : value)
| IndexError
| TypeError
| AttributeError
| NotImplementedError.

Inductive result (A : Type) :=
| Ok (a : A)
| Raise (e : exn).
Arguments Ok {A} a.
Arguments Raise {A} e.

Definition bind {A B} (r : result A) (k : A -> result B) : result B :=
  match r with
  | Ok a => k a
  | Raise e => Raise e
  end.

Definition raises {A} (r : result A) : Prop := exists e, r = Raise e.

(** [bool(v)], as evaluated by an [if] statement. *)
Definition truthy (v : value) : bool :=
  match v with
  | VNone => false
  | VBool b => b
  | VInt z => negb (Z.eqb z 0)
  | VStr s => negb (String.eqb s "")
  | VList l => match l with [] => false | _ :: _ => true end
  | VDict m => negb (bool_decide (m = ∅))
  end.

(** [a == b] on decoded JSON values.  [bool] is a subclass of [int], so
    [True == 1]; lists compare element by element; dicts compare as maps. *)
Fixpoint py_eq (a b : value) {struct a} : bool :=
  match a, b with
  | VNone, VNone => true
  | VBool x, VBool y => Bool.eqb x y
  | VBool x, VInt y => Z.eqb (Z.b2z x) y
  | VInt x, VBool y => Z.eqb x (Z.b2z y)
  | VInt x, VInt y => Z.eqb x y
  | VStr x, VStr y => String.eqb x y
  | VList x, VList y =>
      (fix go (x y : list value) {struct x} : bool :=
         match x, y with
         | [], [] => true
         | a :: x, b :: y => py_eq a b && go x y
         | _, _ => false
         end) x y
  | VDict x, VDict y =>
      Nat.eqb (size x) (size y) &&
      map_fold (fun k v acc =>
                  acc && match y !! k with
                         | Some w => py_eq v w
                         | None => false
                         end) true x
  | _, _ => false
  end.

(** Sequence indexing by an integer: negative indices count from the end. *)
Definition seq_index {A} (l : list A) (i : Z) : result A :=
  let j := if Z.ltb i 0 then (i + Z.of_nat (length l))%Z else i in
  if Z.ltb j 0 then Raise IndexError
  else match l !! Z.to_nat j with
       | Some x => Ok x
       | None => Raise IndexError
       end.

Definition int_of_index (key : value) : option Z :=
  match key with
  | VInt i => Some i
  | VBool b => Some (Z.b2z b)
  | _ => None
  end.

Definition hashable (v : value) : bool :=
  match v with
  | VList _ | VDict _ => false
  | _ => true
  end.

(** [obj[key]]. *)
Definition subscript (obj key : value) : result value :=
  match obj with
  | VDict m =>
      match key with
      | VStr k => match m !! k with
                  | Some v => Ok v
                  | None => Raise (KeyError key)
                  end
      | _ => if hashable key then Raise (KeyError key) else Raise TypeError
      end
  | VList l =>
      match int_of_index key with
      | Some i => seq_index l i
      | None => Raise TypeError
      end
  | VStr s =>
      match int_of_index key with
      | Some i =>
          bind (seq_index (list_ascii_of_string s) i)
               (fun c => Ok (VStr (String c "")))
      | None => Raise TypeError
      end
  | VNone | VBool _ | VInt _ => Raise TypeError
  end.

(** [r[key]] where [r] is itself the outcome of an expression. *)
Definition getitem (r : result value) (key : value) : result value :=
  bind r (fun obj => subscript obj key).

(** [d.get(key)] on a dict. *)
Definition dict_get (d : gmap string value) (key : string) : value :=
  match d !! key with
  | Some v => v
  | None => VNone
  end.

(** [s.startswith(k)] and the substring test behind [k in s]. *)
Fixpoint startswith (k s : string) : bool :=
  match k, s with
  | "", _ => true
  | String a k', String b s' => Ascii.eqb a b && startswith k' s'
  | String _ _, "" => false
  end.

Fixpoint str_contains (k s : string) : bool :=
  startswith k s ||
  match s with
  | "" => false
  | String _ s' => str_contains k s'
  end.

(** [k] occurs in [s]: some text, then [k], then some text. *)
Definition occurs_in (k s : string) : Prop :=
  exists before after, s = before ++ k ++ after.

(** [key in container] for a string [key]. *)
Definition py_in (key : string) (container : value) : result bool :=
  match container with
  | VStr s => Ok (str_contains key s)
  | VList l => Ok (existsb (py_eq (VStr key)) l)
  | VDict m => Ok (bool_decide (is_Some (m !! key)))
  | VNone | VBool _ | VInt _ => Raise TypeError
  end.

(** The builtin [hash] on the hashable atoms is the interpreter's: the hash
    of a [str] is salted per process, and the one of an [int] depends on the
    platform's word size.  [bool] inherits [int.__hash__]. *)
Class BuiltinHash := {
  hash_int : Z -> Z;
  hash_str : string -> Z;
  hash_None : Z
}.

Definition hash `{BuiltinHash} (v : value) : result Z :=
  match v with
  | VNone => Ok hash_None
  | VBool b => Ok (hash_int (Z.b2z b))
  | VInt z => Ok (hash_int z)
  | VStr s => Ok (hash_str s)
  | VList _ | VDict _ => Raise TypeError
  end.

(** [str(z)] for an integer: its decimal digits, after a [-] when it is
    negative. *)
Definition str_of_int (z : Z) : string :=
  NilZero.string_of_int (Z.to_int z).

(** The text of a list or a dict quotes its strings and lists the entries of
    a dict in insertion order, which the values above do not record: it is
    the interpreter's. *)
Class BuiltinRepr := {
  repr_container : value -> string
}.

(** The text that an f-string puts in place of [{v}]: [format(v, "")],
    which is [str(v)] for these values. *)
Definition fstring_field `{BuiltinRepr} (v : value) : string :=
  match v with
  | VNone => "None"
  | VBool true => "True"
  | VBool false => "False"
  | VInt z => str_of_int z
  | VStr s => s
  | VList _ | VDict _ => repr_container v
  end.

(** [str(obj)] where [returned] is what the [__str__] of the class of [obj]
    returns: [str] insists on a string. *)
Definition str_of_object (returned : value) : result string :=
  match returned with
  | VStr s => Ok s
  | _ => Raise TypeError
  end.

End Py.

Notation "'let*' x ':=' e 'in' k" := (Py.bind e (fun x => k))
  (at level 10, x name, e at level 100, k at level 200).

(** ** The fragment of [re] used by [post_id] *)

Module Re.
Import Py.

(** Character sets: [\d], a literal, and a bracketed class [[...]]. *)
Inductive charset :=
| Digit
| Lit (c : ascii)
| Class (members : list charset).

Definition is_digit (c : ascii) : bool :=
  (48 <=? nat_of_ascii c)%nat && (nat_of_ascii c <=? 57)%nat.

Fixpoint in_charset (cs : charset) (c : ascii) : bool :=
  match cs with
  | Digit => is_digit c
  | Lit d => Ascii.eqb c d
  | Class members => existsb (fun m => in_charset m c) members
  end.

(** Patterns: one character of a set, [r1 r2], greedy [r+], and the
    capturing group [(r)] with its number. *)
Inductive regex :=
| Chr (cs : charset)
| Seq (r1 r2 : regex)
| Plus (r : regex)
| Group (n : nat) (r : regex).

Fixpoint str_take (n : nat) (s : string) : string :=
  match n, s with
  | S n', String c s' => String c (str_take n' s')
  | _, _ => ""
  end.

(** The text between the start [s] of a match and what is left, [rest]. *)
Definition consumed (s rest : string) : string :=
  str_take (String.length s - String.length rest) s.

Definition groups := list (nat * string).
Definition cont := string -> groups -> option (string * groups).

(** The iterations of a greedy [r+], where [step] matches [r] once: after
    an iteration, one more is tried first and the continuation [k] only
    when that fails.  Every iteration consumes a character, so the length
    of the subject bounds their number. *)
Definition plus_iter
    (step : string -> groups -> cont -> option (string * groups))
    (k : cont) : nat -> string -> groups -> option (string * groups) :=
  fix iter (fuel : nat) (s : string) (g : groups) {struct fuel} :=
    match fuel with
    | O => None
    | S fuel' =>
        step s g
          (fun s1 g1 =>
             match iter fuel' s1 g1 with
             | Some res => Some res
             | None => k s1 g1
             end)
    end.

(** The backtracking matcher: [rmatch r s g k] matches [r] at the start of
    [s] and hands what is left, with the groups closed so far, to [k]. *)
Fixpoint rmatch (r : regex) (s : string) (g : groups) (k : cont)
  : option (string * groups) :=
  match r with
  | Chr cs =>
      match s with
      | String c s' => if in_charset cs c then k s' g else None
      | "" => None
      end
  | Seq r1 r2 => rmatch r1 s g (fun s1 g1 => rmatch r2 s1 g1 k)
  | Plus r' => plus_iter (rmatch r') k (S (String.length s)) s g
  | Group n r' =>
      rmatch r' s g (fun s1 g1 => k s1 ((n, consumed s s1) :: g1))
  end.

(** A match object: where the match starts, its text and its groups. *)
Record Match := {
  start : nat;
  group0 : string;
  captures : groups
}.

Fixpoint assoc (n : nat) (g : groups) : option string :=
  match g with
  | [] => None
  | (m, w) :: g' => if Nat.eqb n m then Some w else assoc n g'
  end.

(** [m.group(n)]. *)
Definition group (m : Match) (n : nat) : result value :=
  match n with
  | O => Ok (VStr (group0 m))
  | S _ => match assoc n (captures m) with
           | Some w => Ok (VStr w)
           | None => Raise IndexError
           end
  end.

(** The continuation at the end of the pattern: the match is complete. *)
Definition accept : cont := fun rest g => Some (rest, g).

(** Scanning for the first position where the pattern matches. *)
Fixpoint search_from (r : regex) (i : nat) (s : string) : option Match :=
  match rmatch r s [] accept with
  | Some (rest, g) =>
      Some {| start := i; group0 := consumed s rest; captures := g |}
  | None =>
      match s with
      | "" => None
      | String _ s' => search_from r (S i) s'
      end
  end.

(** [re.search(pattern, string)]: a match object or [None]. *)
Definition search (r : regex) (subject : value) : result (option Match) :=
  match subject with
  | VStr s => Ok (search_from r 0 s)
  | _ => Raise TypeError
  end.

(** The words of a pattern, independently of any matching strategy. *)
Inductive lang : regex -> string -> Prop :=
| lang_chr cs c :
    in_charset cs c = true -> lang (Chr cs) (String c "")
| lang_seq r1 r2 w1 w2 :
    lang r1 w1 -> lang r2 w2 -> lang (Seq r1 r2) (w1 ++ w2)
| lang_plus_one r w :
    lang r w -> lang (Plus r) w
| lang_plus_more r w1 w2 :
    lang r w1 -> lang (Plus r) w2 -> lang (Plus r) (w1 ++ w2)
| lang_group n r w :
    lang r w -> lang (Group n r) w.

(** Every character of [w] is in [cs]; [s] starts with one that is. *)
Fixpoint all_in (cs : charset) (w : string) : bool :=
  match w with
  | "" => true
  | String c w' => in_charset cs c && all_in cs w'
  end.

Definition heads (cs : charset) (s : string) : bool :=
  match s with
  | "" => false
  | String c _ => in_charset cs c
  end.

(** A continuation that accepts whatever is left. *)
Definition total (k : cont) : Prop :=
  forall s g, exists res, k s g = Some res.

(** [w] is the longest word of [r] that [s] starts with; [s] starts with
    no word of [r]. *)
Definition longest_prefix (r : regex) (s w : string) : Prop :=
  (exists rest, s = w ++ rest /\ lang r w) /\
  forall w' rest', s = w' ++ rest' -> lang r w' ->
    (String.length w' <= String.length w)%nat.

Definition no_prefix (r : regex) (s : string) : Prop :=
  forall w rest, s = w ++ rest -> ~ lang r w.

(** At every position the matcher finds the longest word of [r] that
    starts there, if there is one. *)
Definition finds_longest (r : regex) : Prop :=
  forall s,
    (rmatch r s [] accept = None /\ no_prefix r s) \/
    (exists w rest g,
       s = w ++ rest /\ rmatch r s [] accept = Some (rest, g) /\
       longest_prefix r s w).

(** [w] is a match of [r] in [s] that starts after [pre]. *)
Definition match_at (r : regex) (s pre w : string) : Prop :=
  exists rest, s = pre ++ w ++ rest /\ lang r w.

(** [w] is the leftmost match of [r] in [s], and the longest one that
    starts there. *)
Definition first_match (r : regex) (s w : string) : Prop :=
  exists pre,
    match_at r s pre w /\
    forall pre' w',
      match_at r s pre' w' ->
      (String.length pre <= String.length pre')%nat /\
      (String.length pre' = String.length pre ->
       (String.length w' <= String.length w)%nat).

End Re.

(** ** [sunverse.enums] *)

Module Enums.

(** Modelled from the spec: the enumeration [sunverse.enums.PostTypes] is
    imported by [notification.py] but its declaration is not among the
    sources; these are the members that [post_type] refers to, as distinct
    enumeration values. *)
Inductive PostTypes :=
| USER_POST_COMMENT
| MEDIA_COMMENT
| MOMENT_COMMENT
| ARTIST_POST_COMMENT
| POST
| MOMENT
| LIVE
| MEDIA
| NOTICE
| BIRTHDAY.

End Enums.

(** ** [sunverse.objects.notification] *)

Module Notification.
Import Py Enums.

#[local] Coercion VStr : string >-> value.
#[local] Coercion VInt : Z >-> value.
#[local] Notation "r .[ k ]" := (getitem r k)
  (at level 1, left associativity, format "r .[ k ]").

(** The slots of a [Notification].  Python stores whatever the payload
    holds, so every slot is a [value]. *)
Record t := {
  data : gmap string value;
  id : value;
  is_read : value;
  title : value;
  message_ko : value;
  message_ja : value;
  message_en : value;
  logo_image_url : value;
  image_url : value;
  web_url : value;
  time_created : value;
  count : value;
  community_id : value
}.

(** The objects that reach [__eq__] or come out of [post_type]. *)
Inductive object :=
| ONotification (n : t)
| OValue (v : value)
| OPostTypes (p : PostTypes).

Definition __init__ (data : gmap string value) : result t :=
  let d := Ok (VDict data) in
  let* id := d.["activityId"] in
  let* is_read := d.["read"] in
  let* title := d.["title"] in
  let* message_ko := d.["message"].["values"].["ko"] in
  let* message_ja := d.["message"].["values"].["ja"] in
  let* message_en := d.["message"].["values"].["en"] in
  let* logo_image_url := d.["logoImageUrl"] in
  let image_url := dict_get data "imageUrl" in
  let* web_url := d.["webUrl"] in
  let* time_created := d.["time"] in
  let* count := d.["count"] in
  let* community_id := d.["community"].["communityId"] in
  Ok {| data := data; id := id; is_read := is_read; title := title;
        message_ko := message_ko; message_ja := message_ja;
        message_en := message_en; logo_image_url := logo_image_url;
        image_url := image_url; web_url := web_url;
        time_created := time_created; count := count;
        community_id := community_id |}.

(** [isinstance(other, self.__class__)]. *)
Definition isinstance_Notification (other : object) : bool :=
  match other with
  | ONotification _ => true
  | OValue _ | OPostTypes _ => false
  end.

Definition __eq__ (self : t) (other : object) : result bool :=
  match other with
  | ONotification other => Ok (py_eq (id self) (id other))
  | OValue _ | OPostTypes _ => Raise NotImplementedError
  end.

(** [other == self] with [other] on the left.  The [__eq__] of a value of
    another class does not know [Notification] and answers
    [NotImplemented], so the interpreter calls the reflected
    [self.__eq__(other)]. *)
Definition eq_reflected (other : object) (self : t) : result bool :=
  match other with
  | ONotification other => __eq__ other (ONotification self)
  | OValue _ | OPostTypes _ => __eq__ self other
  end.

Definition __repr__ `{BuiltinRepr} (self : t) : string :=
  "Notification notification_id=" ++ fstring_field (id self)
    ++ ", message=" ++ fstring_field (message_en self).

Definition __str__ (self : t) : value :=
  message_en self.

Definition __hash__ `{BuiltinHash} (self : t) : result Z :=
  hash (id self).

(** [re.compile(r"([\d]-\d+)")] and [r"\d+"]. *)
Definition pattern : Re.regex :=
  Re.Group 1
    (Re.Seq (Re.Chr (Re.Class [Re.Digit]))
       (Re.Seq (Re.Chr (Re.Lit "-")) (Re.Plus (Re.Chr Re.Digit)))).

Definition digits : Re.regex := Re.Plus (Re.Chr Re.Digit).

Definition post_id (self : t) : result value :=
  let d := Ok (VDict (data self)) in
  let* subject := d.["messageId"] in
  let* found := Re.search pattern subject in
  let* found :=
    match found with
    | Some m => Ok (Some m)
    | None =>
        let* subject := d.["messageId"] in
        Re.search digits subject
    end in
  match found with
  | Some m => Re.group m 0
  | None => Raise AttributeError
  end.

(** The dict literal of [post_type]; a dict iterates in insertion order. *)
Definition post_types : list (string * PostTypes) :=
  [ ("T_FEED_COMMENT", USER_POST_COMMENT);
    ("ST_FEED_COMMENT", USER_POST_COMMENT);
    ("_MEDIA_COMMENT", MEDIA_COMMENT);
    ("_MOMENT_COMMENT", MOMENT_COMMENT);
    ("MOMENT_COMMENT", MOMENT_COMMENT);
    ("ARTIST_COMMENT", ARTIST_POST_COMMENT);
    ("ARTIST_POST", POST);
    ("ARTIST_MOMENT", MOMENT);
    ("ARTIST_LIVE_ON_AIR", LIVE);
    ("COMMUNITY_MEDIA", MEDIA);
    ("NOTICE", NOTICE);
    ("COMMUNITY_ANNIVERSARY", BIRTHDAY) ].

(** The [for key, value in post_types.items()] loop. *)
Fixpoint post_type_loop (self : t) (items : list (string * PostTypes))
  : result object :=
  match items with
  | [] => Ok (OValue (VStr "NOT IMPLEMENTED"))
  | (key, value) :: items' =>
      let* container := (Ok (VDict (data self))).["messageId"] in
      let* found := py_in key container in
      if found then Ok (OPostTypes value) else post_type_loop self items'
  end.

Definition post_type (self : t) : result object :=
  post_type_loop self post_types.

Definition author_id (self : t) : result value :=
  if truthy (dict_get (data self) "authors")
  then (Ok (VDict (data self))).["authors"].[0%Z].["memberId"]
  else Ok VNone.

End Notification.

(** ** [sunverse.objects.live] *)

Module Live.
Import Py.

#[local] Coercion VStr : string >-> value.
#[local] Coercion VInt : Z >-> value.
#[local] Notation "r .[ k ]" := (getitem r k)
  (at level 1, left associativity, format "r .[ k ]").

Section Live.

(** The base class [sunverse.objects.media.WeverseMedia] is declared
    elsewhere: its instances and its constructor are taken as given. *)
Context {WeverseMedia : Type}.
Variable WeverseMedia__init__ : gmap string value -> result WeverseMedia.

Record t := {
  base : WeverseMedia;
  message_count : value
}.

Definition __init__ (data : gmap string value) : result t :=
  let* super := WeverseMedia__init__ data in
  let* message_count :=
    (Ok (VDict data)).["extension"].["mediaInfo"].["chat"].["messageCount"] in
  Ok {| base := super; message_count := message_count |}.

End Live.

End Live.

(** ** Payload paths *)

Module Path.
Import Py.

(** Where following a path of keys through nested mappings ends: at a
    value, at a mapping that lacks the next key, or at a value that is not
    a mapping. *)
Inductive status :=
| Found (v : value)
| NoKey (key : string)
| NotMapping.

Fixpoint walk (v : value) (path : list string) : status :=
  match path with
  | [] => Found v
  | key :: path' =>
      match v with
      | VDict m =>
          match m !! key with
          | Some v' => walk v' path'
          | None => NoKey key
          end
      | _ => NotMapping
      end
  end.

(** What subscripting along the path evaluates to. *)
Definition outcome (st : status) : result value :=
  match st with
  | Found v => Ok v
  | NoKey key => Raise (KeyError (VStr key))
  | NotMapping => Raise TypeError
  end.

Definition read (P : gmap string value) (path : list string) : result value :=
  outcome (walk (VDict P) path).

(** The payload holds no value at [path]. *)
Definition absent (payload : gmap string value) (path : list string) : Prop :=
  forall v, walk (VDict payload) path <> Found v.

(** The source paths of the eleven fields that [__init__] reads by
    subscripting. *)
Definition required : list (list string) :=
  [ ["activityId"]; ["read"]; ["title"];
    ["message"; "values"; "ko"]; ["message"; "values"; "ja"];
    ["message"; "values"; "en"];
    ["logoImageUrl"]; ["webUrl"]; ["time"]; ["count"];
    ["community"; "communityId"] ].

Definition message_count_path : list string :=
  ["extension"; "mediaInfo"; "chat"; "messageCount"].

(** The errors that report a payload of the wrong form. *)
Definition malformed_payload (e : exn) : Prop :=
  e = TypeError \/ exists key, e = KeyError (VStr key).

End Path.

(** ** Sample payloads *)

Module Samples.
Import Py.

Definition payload : gmap string value :=
  {[ "activityId" := VInt 7; "read" := VBool false; "title" := VStr "SUN";
     "message" :=
       VDict {[ "values" :=
                  VDict {[ "ko" := VStr "k"; "ja" := VStr "j";
                           "en" := VStr "e" ]} ]};
     "logoImageUrl" := VStr "logo"; "webUrl" := VStr "web";
     "time" := VInt 1; "count" := VInt 2;
     "community" := VDict {[ "communityId" := VInt 3 ]};
     "messageId" := VStr "0-12_MEDIA_COMMENT";
     "authors" := VList [VDict {[ "memberId" := VStr "abc" ]}] ]}.

Definition notification : Notification.t :=
  {| Notification.data := payload;
     Notification.id := VInt 7;
     Notification.is_read := VBool false;
     Notification.title := VStr "SUN";
     Notification.message_ko := VStr "k";
     Notification.message_ja := VStr "j";
     Notification.message_en := VStr "e";
     Notification.logo_image_url := VStr "logo";
     Notification.image_url := VNone;
     Notification.web_url := VStr "web";
     Notification.time_created := VInt 1;
     Notification.count := VInt 2;
     Notification.community_id := VInt 3 |}.

(** The same notification with another [messageId] or [authors]. *)
Definition with_field (key : string) (v : value) : Notification.t :=
  {| Notification.data := <[key := v]> payload;
     Notification.id := VInt 7;
     Notification.is_read := VBool false;
     Notification.title := VStr "SUN";
     Notification.message_ko := VStr "k";
     Notification.message_ja := VStr "j";
     Notification.message_en := VStr "e";
     Notification.logo_image_url := VStr "logo";
     Notification.image_url := VNone;
     Notification.web_url := VStr "web";
     Notification.time_created := VInt 1;
     Notification.count := VInt 2;
     Notification.community_id := VInt 3 |}.

(** The notification that [__init__] builds from the sample payload once
    [key] is removed, for a [key] that [__init__] does not read. *)
Definition without_field (key : string) : Notification.t :=
  {| Notification.data := delete key payload;
     Notification.id := VInt 7;
     Notification.is_read := VBool false;
     Notification.title := VStr "SUN";
     Notification.message_ko := VStr "k";
     Notification.message_ja := VStr "j";
     Notification.message_en := VStr "e";
     Notification.logo_image_url := VStr "logo";
     Notification.image_url := VNone;
     Notification.web_url := VStr "web";
     Notification.time_created := VInt 1;
     Notification.count := VInt 2;
     Notification.community_id := VInt 3 |}.

(** A stand-in for the interpreter's text of lists and dicts. *)
Definition sample_repr : BuiltinRepr :=
  {| repr_container := fun _ => "[...]" |}.

(** An [authors] list whose only element has no [memberId]. *)
Definition no_member_id : value := VList [VDict ∅].

(** A stand-in for the interpreter's [hash]. *)
Definition sample_hash : BuiltinHash :=
  {| hash_int := fun z => (z mod 2305843009213693951)%Z;
     hash_str := fun s => Z.of_nat (String.length s);
     hash_None := 0%Z |}.

(** A stand-in for the base class: it keeps the payload's [title]. *)
Definition media__init__ (data : gmap string value) : result value :=
  subscript (VDict data) (VStr "title").

Definition live_payload : gmap string value :=
  {[ "title" := VStr "live";
     "extension" :=
       VDict {[ "mediaInfo" :=
                  VDict {[ "chat" :=
                             VDict {[ "messageCount" := VInt 42 ]} ]} ]} ]}.

End Samples.

(** * Properties *)

Import Py Enums Path.

(** ** Reading the payload *)

(** A chain of subscripts by string keys follows the path. *)
Lemma getitem_walk (path : list string) (v : value) :
  fold_left getitem (map VStr path) (Ok v) = outcome (walk v path).
Proof.
  revert v. induction path as [|key path IH]; intros v; [reflexivity|].
  cbn [map fold_left]. unfold getitem at 2. cbn [bind].
  destruct v; cbn [subscript walk int_of_index outcome];
    try (clear IH; induction path; [reflexivity | assumption]).
  destruct (m !! key) as [v'|]; [apply IH|].
  clear IH; induction path; [reflexivity | assumption].
Qed.

Lemma outcome_raise_malformed (st : status) (e : exn) :
  outcome st = Raise e -> malformed_payload e.
Proof.
  destruct st; cbn; intros E; inversion E; subst; [right; eauto | left; reflexivity].
Qed.

Lemma outcome_ok (st : status) (v : value) :
  outcome st = Ok v <-> st = Found v.
Proof. destruct st; cbn; split; intros E; inversion E; reflexivity. Qed.

Lemma absent_outcome (P : gmap string value) (path : list string) :
  absent P path <-> raises (outcome (walk (VDict P) path)).
Proof.
  unfold absent, raises. destruct (walk (VDict P) path); cbn; split.
  - intros A. now destruct (A v).
  - intros [e E]. discriminate.
  - eauto.
  - discriminate.
  - eauto.
  - discriminate.
Qed.

Lemma absent_cases (P : gmap string value) (path : list string) :
  absent P path <->
  (exists key, walk (VDict P) path = NoKey key) \/ walk (VDict P) path = NotMapping.
Proof.
  unfold absent. destruct (walk (VDict P) path) as [v|key|]; split.
  - intros A. now destruct (A v).
  - intros [[key E]|E]; discriminate E.
  - intros _. left. now exists key.
  - discriminate.
  - now right.
  - discriminate.
Qed.

(** The constructor, with each chain of subscripts read as a path. *)
Lemma init_read (P : gmap string value) :
  Notification.__init__ P =
    let* id := read P ["activityId"] in
    let* is_read := read P ["read"] in
    let* title := read P ["title"] in
    let* message_ko := read P ["message"; "values"; "ko"] in
    let* message_ja := read P ["message"; "values"; "ja"] in
    let* message_en := read P ["message"; "values"; "en"] in
    let* logo_image_url := read P ["logoImageUrl"] in
    let* web_url := read P ["webUrl"] in
    let* time_created := read P ["time"] in
    let* count := read P ["count"] in
    let* community_id := read P ["community"; "communityId"] in
    Ok {| Notification.data := P; Notification.id := id;
          Notification.is_read := is_read; Notification.title := title;
          Notification.message_ko := message_ko;
          Notification.message_ja := message_ja;
          Notification.message_en := message_en;
          Notification.logo_image_url := logo_image_url;
          Notification.image_url := dict_get P "imageUrl";
          Notification.web_url := web_url;
          Notification.time_created := time_created;
          Notification.count := count;
          Notification.community_id := community_id |}.
Proof. unfold read. rewrite <- !getitem_walk. reflexivity. Qed.

(** Stepping through the constructor: every read either yields a value or
    ends the construction. *)
Ltac step_read H :=
  match type of H with
  | context [read ?P ?path] =>
      let E := fresh "E" in
      destruct (read P path) eqn:E; cbn [bind] in H
  end.

Lemma init_inv (P : gmap string value) (n : Notification.t) :
  Notification.__init__ P = Ok n ->
  Notification.data n = P /\
  P !! "activityId" = Some (Notification.id n) /\
  Notification.image_url n = dict_get P "imageUrl" /\
  Forall (fun path => exists v, walk (VDict P) path = Found v) required.
Proof.
  rewrite init_read. intros H.
  repeat (step_read H; [|discriminate H]).
  inversion H; subst; clear H. cbn.
  unfold read in *.
  repeat match goal with
         | E : outcome _ = Ok _ |- _ => apply outcome_ok in E
         end.
  split; [reflexivity|]. split.
  - cbn in E. destruct (P !! "activityId"); inversion E; reflexivity.
  - split; [reflexivity|]. unfold required.
    repeat constructor; eauto.
Qed.

Lemma init_raise_inv (P : gmap string value) (e : exn) :
  Notification.__init__ P = Raise e ->
  malformed_payload e /\ exists path, In path required /\ absent P path.
Proof.
  rewrite init_read. intros H.
  repeat (step_read H;
          [| inversion H; subst;
             match goal with
             | E : read _ _ = Raise _ |- _ =>
                 split;
                 [ eapply outcome_raise_malformed; exact E
                 | eexists; split;
                   [| apply absent_outcome; eexists; exact E]; cbn; tauto ]
             end ]).
  discriminate H.
Qed.

Lemma init_absent_raises (P : gmap string value) (path : list string) :
  In path required -> absent P path -> raises (Notification.__init__ P).
Proof.
  intros I A. destruct (Notification.__init__ P) as [n|e] eqn:H; [|eexists; reflexivity].
  apply init_inv in H. destruct H as (_ & _ & _ & F).
  rewrite Forall_forall in F. destruct (F path) as [v Hv].
  - apply list_elem_of_In. exact I.
  - destruct (A v Hv).
Qed.

(** ** Equality and hashing *)

Lemma py_eq_int (i j : Z) : py_eq (VInt i) (VInt j) = true <-> i = j.
Proof. cbn. apply Z.eqb_eq. Qed.

(** Values that compare equal with [==] hash alike (and unhashable values
    fail alike). *)
Lemma py_eq_hash `{BuiltinHash} (a b : value) :
  py_eq a b = true -> hash a = hash b.
Proof.
  destruct a, b; cbn [hash]; try reflexivity; cbn; try discriminate.
  - intros E. apply Bool.eqb_prop in E. now subst.
  - intros E. apply Z.eqb_eq in E. now subst.
  - intros E. apply Z.eqb_eq in E. now subst.
  - intros E. apply Z.eqb_eq in E. now subst.
  - intros E. apply String.eqb_eq in E. now subst.
Qed.

(** C1: a notification built from a payload has the payload's [activityId]
    as its [id], and comparing two notifications built from payloads [P] and
    [P2] returns the truth value of [P["activityId"] == P2["activityId"]];
    when both identifiers are integers, that is their equality. *)
Theorem notification_eq_iff_activity_id
    (P P2 : gmap string value) (n n2 : Notification.t) :
  Notification.__init__ P = Ok n ->
  Notification.__init__ P2 = Ok n2 ->
  exists a a2,
    P !! "activityId" = Some a /\ P2 !! "activityId" = Some a2 /\
    Notification.id n = a /\
    Notification.__eq__ n (Notification.ONotification n2) = Ok (py_eq a a2) /\
    forall i j, a = VInt i -> a2 = VInt j ->
      (Notification.__eq__ n (Notification.ONotification n2) = Ok true <-> i = j).
Proof.
  intros H H2.
  apply init_inv in H. destruct H as (_ & Ha & _).
  apply init_inv in H2. destruct H2 as (_ & Ha2 & _).
  exists (Notification.id n), (Notification.id n2).
  split; [assumption|]. split; [assumption|]. split; [reflexivity|].
  split; [reflexivity|].
  intros i j Ei Ej. cbn. rewrite Ei, Ej. split.
  - intros E. inversion E as [E']. now apply py_eq_int.
  - intros ->. f_equal. now apply py_eq_int.
Qed.

Lemma notification_eq_iff_activity_id_witness :
  Notification.__init__ Samples.payload = Ok Samples.notification /\
  exists a a2,
    Samples.payload !! "activityId" = Some a /\
    Samples.payload !! "activityId" = Some a2 /\
    Notification.id Samples.notification = a /\
    Notification.__eq__ Samples.notification
      (Notification.ONotification Samples.notification) = Ok (py_eq a a2) /\
    forall i j, a = VInt i -> a2 = VInt j ->
      (Notification.__eq__ Samples.notification
         (Notification.ONotification Samples.notification) = Ok true <-> i = j).
Proof.
  split; [vm_compute; reflexivity|].
  apply (notification_eq_iff_activity_id Samples.payload Samples.payload);
    vm_compute; reflexivity.
Defined.

(** C2: comparing a notification with anything that is not a notification
    raises [NotImplementedError], whichever side the notification is on; no
    truth value is returned. *)
Theorem eq_other_raises (n : Notification.t) (other : Notification.object) :
  Notification.isinstance_Notification other = false ->
  Notification.__eq__ n other = Raise NotImplementedError /\
  Notification.eq_reflected other n = Raise NotImplementedError /\
  forall b : bool, Notification.__eq__ n other <> Ok b.
Proof.
  destruct other; cbn; intros I; try discriminate I;
    (split; [reflexivity | split; [reflexivity | discriminate]]).
Qed.

Lemma eq_other_raises_witness :
  Notification.isinstance_Notification (Notification.OValue (VInt 5)) = false /\
  Notification.__eq__ Samples.notification (Notification.OValue (VInt 5))
    = Raise NotImplementedError.
Proof.
  split; [reflexivity|].
  apply (eq_other_raises Samples.notification (Notification.OValue (VInt 5))).
  reflexivity.
Defined.

(** C9: the hash of a notification is the hash of its [id], that is of the
    payload's [activityId], and notifications that compare equal hash
    alike. *)
Theorem hash_from_id `{BuiltinHash} (P : gmap string value) (n : Notification.t) :
  Notification.__init__ P = Ok n ->
  Notification.__hash__ n = hash (Notification.id n) /\
  (exists a, P !! "activityId" = Some a /\ Notification.__hash__ n = hash a) /\
  forall n2 : Notification.t,
    Notification.__eq__ n (Notification.ONotification n2) = Ok true ->
    Notification.__hash__ n = Notification.__hash__ n2.
Proof.
  intros I. apply init_inv in I. destruct I as (_ & Ha & _).
  split; [reflexivity|]. split.
  - exists (Notification.id n). split; [assumption | reflexivity].
  - intros n2 E. cbn in E. inversion E as [E'].
    unfold Notification.__hash__. now apply py_eq_hash.
Qed.

Lemma hash_from_id_witness :
  Notification.__init__ Samples.payload = Ok Samples.notification /\
  @Notification.__hash__ Samples.sample_hash Samples.notification
    = @hash Samples.sample_hash (Notification.id Samples.notification) /\
  (exists a, Samples.payload !! "activityId" = Some a /\
             @Notification.__hash__ Samples.sample_hash Samples.notification
               = @hash Samples.sample_hash a) /\
  forall n2 : Notification.t,
    Notification.__eq__ Samples.notification (Notification.ONotification n2)
      = Ok true ->
    @Notification.__hash__ Samples.sample_hash Samples.notification
      = @Notification.__hash__ Samples.sample_hash n2.
Proof.
  split; [vm_compute; reflexivity|].
  apply (@hash_from_id Samples.sample_hash Samples.payload Samples.notification).
  vm_compute; reflexivity.
Defined.

(** ** Construction *)

(** C6: constructing a notification fails exactly when the payload holds no
    value at the source path of one of the required fields, and the error
    then reports a malformed payload; [imageUrl] is read with [dict.get], so a
    payload that only lacks [imageUrl] yields a notification whose
    [image_url] is [None]. *)
Theorem init_fails_iff_required_absent (P : gmap string value) :
  (raises (Notification.__init__ P) <->
   exists path, In path required /\ absent P path) /\
  (forall e, Notification.__init__ P = Raise e -> malformed_payload e) /\
  (forall n, Notification.__init__ P = Ok n ->
             Notification.image_url n = dict_get P "imageUrl") /\
  (P !! "imageUrl" = None ->
   (forall path, In path required -> ~ absent P path) ->
   exists n, Notification.__init__ P = Ok n /\ Notification.image_url n = VNone).
Proof.
  split; [split|split; [|split]].
  - intros [e E]. now apply init_raise_inv in E.
  - intros (path & I & A). now apply init_absent_raises with path.
  - intros e E. now apply init_raise_inv in E.
  - intros n E. now apply init_inv in E.
  - intros Himg Hreq.
    destruct (Notification.__init__ P) as [n|e] eqn:E.
    + exists n. split; [reflexivity|].
      apply init_inv in E. destruct E as (_ & _ & -> & _).
      unfold dict_get. now rewrite Himg.
    + apply init_raise_inv in E. destruct E as (_ & path & I & A).
      destruct (Hreq path I A).
Qed.

Lemma init_fails_iff_required_absent_witness :
  Samples.payload !! "imageUrl" = None /\
  exists n, Notification.__init__ Samples.payload = Ok n /\
            Notification.image_url n = VNone.
Proof.
  split; [vm_compute; reflexivity|].
  apply (proj2 (proj2 (proj2 (init_fails_iff_required_absent Samples.payload)))).
  - vm_compute; reflexivity.
  - intros path I A. cbn in I.
    repeat (destruct I as [<-|I]; [eapply A; vm_compute; reflexivity|]).
    destruct I.
Defined.

(** C7: a [Live] takes its [message_count] from the value that the payload
    holds at [extension.mediaInfo.chat.messageCount]; when the payload holds
    no value there (a key of the path is missing, or a value on the way is
    not a mapping) the construction fails, with a malformed-payload error
    once the base class has accepted the payload. *)
Theorem live_message_count {WeverseMedia : Type}
    (super : gmap string value -> result WeverseMedia) (P : gmap string value) :
  (forall l, Live.__init__ super P = Ok l ->
     super P = Ok (Live.base l) /\
     walk (VDict P) message_count_path = Found (Live.message_count l)) /\
  (forall b v, super P = Ok b ->
     walk (VDict P) message_count_path = Found v ->
     Live.__init__ super P = Ok {| Live.base := b; Live.message_count := v |}) /\
  (absent P message_count_path <->
   (exists key, walk (VDict P) message_count_path = NoKey key) \/
   walk (VDict P) message_count_path = NotMapping) /\
  (absent P message_count_path -> raises (Live.__init__ super P)) /\
  (forall b e, super P = Ok b -> Live.__init__ super P = Raise e ->
     malformed_payload e /\ absent P message_count_path).
Proof.
  assert (R : Live.__init__ super P =
              let* b := super P in
              let* v := read P message_count_path in
              Ok {| Live.base := b; Live.message_count := v |}).
  { unfold read, message_count_path. rewrite <- getitem_walk. reflexivity. }
  rewrite R. clear R. unfold read.
  split; [|split; [|split; [|split]]].
  - intros l E. destruct (super P) as [b|]; [|discriminate E]. cbn [bind] in E.
    destruct (walk (VDict P) message_count_path); inversion E; subst.
    split; reflexivity.
  - intros b v -> ->. reflexivity.
  - apply absent_cases.
  - intros A. apply absent_outcome in A. destruct A as [e A].
    destruct (super P); cbn [bind]; [rewrite A|]; eexists; reflexivity.
  - intros b e -> E. cbn [bind] in E.
    destruct (outcome (walk (VDict P) message_count_path)) eqn:O; inversion E; subst.
    split; [now apply outcome_raise_malformed in O|].
    apply absent_outcome. now exists e.
Qed.

Lemma live_message_count_witness :
  Samples.media__init__ Samples.live_payload = Ok (VStr "live") /\
  walk (VDict Samples.live_payload) message_count_path = Found (VInt 42) /\
  Live.__init__ Samples.media__init__ Samples.live_payload
    = Ok {| Live.base := VStr "live"; Live.message_count := VInt 42 |} /\
  absent Samples.payload message_count_path /\
  raises (Live.__init__ Samples.media__init__ Samples.payload).
Proof.
  split; [vm_compute; reflexivity|]. split; [vm_compute; reflexivity|].
  split.
  - apply (proj1 (proj2 (live_message_count Samples.media__init__ Samples.live_payload)));
      vm_compute; reflexivity.
  - assert (A : absent Samples.payload message_count_path)
      by (intros v; vm_compute; discriminate).
    split; [exact A|].
    apply (proj1 (proj2 (proj2 (proj2
      (live_message_count Samples.media__init__ Samples.payload))))).
    exact A.
Defined.

(** ** [author_id] *)

(** C8 as stated fails: on a payload whose first author has no [memberId],
    the notification is constructed and [author_id] raises [KeyError]. *)
Lemma author_id_raises_without_member_id :
  Notification.__init__ (<["authors" := Samples.no_member_id]> Samples.payload)
    = Ok (Samples.with_field "authors" Samples.no_member_id) /\
  Notification.author_id (Samples.with_field "authors" Samples.no_member_id)
    = Raise (KeyError (VStr "memberId")).
Proof. split; vm_compute; reflexivity. Qed.

(** C8, as amended: [author_id] is [None] when the payload has no [authors]
    key or an empty [authors] list; with a non-empty [authors] list it is the
    outcome of [authors[0]["memberId"]], hence the [memberId] of the first
    element when that element is a mapping with this key. *)
Theorem author_id_first_member (n : Notification.t) :
  (Notification.data n !! "authors" = None ->
   Notification.author_id n = Ok VNone) /\
  (Notification.data n !! "authors" = Some (VList []) ->
   Notification.author_id n = Ok VNone) /\
  (forall first others,
     Notification.data n !! "authors" = Some (VList (first :: others)) ->
     Notification.author_id n = subscript first (VStr "memberId")) /\
  (forall m others v,
     Notification.data n !! "authors" = Some (VList (VDict m :: others)) ->
     m !! "memberId" = Some v ->
     Notification.author_id n = Ok v).
Proof.
  assert (First : forall first others,
             Notification.data n !! "authors" = Some (VList (first :: others)) ->
             Notification.author_id n = subscript first (VStr "memberId")).
  { intros first others E.
    unfold Notification.author_id, dict_get, getitem.
    cbn [bind subscript]. rewrite E. reflexivity. }
  split; [|split; [|split]].
  - unfold Notification.author_id, dict_get. intros ->. reflexivity.
  - unfold Notification.author_id, dict_get. intros ->. reflexivity.
  - exact First.
  - intros m others v E Hv. rewrite (First _ _ E).
    cbn [subscript]. now rewrite Hv.
Qed.

Lemma author_id_first_member_witness :
  Notification.data Samples.notification !! "authors"
    = Some (VList [VDict {[ "memberId" := VStr "abc" ]}]) /\
  Notification.author_id Samples.notification = Ok (VStr "abc").
Proof.
  split; [vm_compute; reflexivity|].
  apply (proj2 (proj2 (proj2 (author_id_first_member Samples.notification)))
           {[ "memberId" := VStr "abc" ]} [] (VStr "abc"));
    vm_compute; reflexivity.
Defined.

(** ** [post_type] *)

Lemma startswith_spec (k s : string) :
  startswith k s = true <-> exists after, s = k ++ after.
Proof.
  revert s. induction k as [|a k IH]; intros s; cbn.
  - split; eauto.
  - destruct s as [|b s].
    + split; [discriminate | intros [after E]; discriminate E].
    + rewrite andb_true_iff, IH. split.
      * intros [Eab [after ->]]. apply Ascii.eqb_eq in Eab. subst. eauto.
      * intros [after E]. inversion E; subst. split; [apply Ascii.eqb_refl | eauto].
Qed.

(** The substring test of [in] finds exactly the occurrences. *)
Lemma str_contains_spec (k s : string) :
  str_contains k s = true <-> occurs_in k s.
Proof.
  unfold occurs_in. induction s as [|c s IH]; cbn.
  - rewrite orb_false_r, startswith_spec. split.
    + intros [after E]. exists "", after. exact E.
    + intros (before & after & E). destruct before; [eauto | discriminate E].
  - rewrite orb_true_iff, IH, startswith_spec. split.
    + intros [[after E] | (before & after & E)].
      * exists "", after. exact E.
      * exists (String c before), after. cbn. now rewrite E.
    + intros (before & after & E). destruct before as [|c' before].
      * left. eauto.
      * right. inversion E; subst. eauto.
Qed.

Lemma str_contains_false (k s : string) :
  str_contains k s = false <-> ~ occurs_in k s.
Proof.
  rewrite <- str_contains_spec. destruct (str_contains k s); split; intros H.
  - discriminate H.
  - now destruct H.
  - discriminate.
  - reflexivity.
Qed.

Lemma post_type_loop_step (n : Notification.t) (s key : string)
    (value : PostTypes) (items : list (string * PostTypes)) :
  Notification.data n !! "messageId" = Some (VStr s) ->
  Notification.post_type_loop n ((key, value) :: items) =
    if str_contains key s then Ok (Notification.OPostTypes value)
    else Notification.post_type_loop n items.
Proof.
  intros E. cbn [Notification.post_type_loop]. unfold getitem.
  cbn [bind subscript]. rewrite E. reflexivity.
Qed.

Lemma post_type_loop_first (n : Notification.t) (s : string) :
  Notification.data n !! "messageId" = Some (VStr s) ->
  forall before key value after,
    occurs_in key s ->
    (forall k v, In (k, v) before -> ~ occurs_in k s) ->
    Notification.post_type_loop n (before ++ (key, value) :: after)%list
      = Ok (Notification.OPostTypes value).
Proof.
  intros E before key value after Hkey.
  induction before as [|[k v] before IH]; intros Hbefore; cbn [app].
  - rewrite (post_type_loop_step _ _ _ _ _ E).
    apply str_contains_spec in Hkey. now rewrite Hkey.
  - rewrite (post_type_loop_step _ _ _ _ _ E).
    assert (F : str_contains k s = false).
    { apply str_contains_false. apply (Hbefore k v). now left. }
    rewrite F. apply IH. intros k' v' I. apply (Hbefore k' v'). now right.
Qed.

Lemma post_type_loop_none (n : Notification.t) (s : string) :
  Notification.data n !! "messageId" = Some (VStr s) ->
  forall items,
    (forall k v, In (k, v) items -> ~ occurs_in k s) ->
    Notification.post_type_loop n items = Ok (Notification.OValue (VStr "NOT IMPLEMENTED")).
Proof.
  intros E items. induction items as [|[k v] items IH]; intros Hnone.
  - reflexivity.
  - rewrite (post_type_loop_step _ _ _ _ _ E).
    assert (F : str_contains k s = false).
    { apply str_contains_false. apply (Hnone k v). now left. }
    rewrite F. apply IH. intros k' v' I. apply (Hnone k' v'). now right.
Qed.

(** C3: the markers are tried in the order in which the table declares them,
    and when [messageId] is a string in which a marker occurs, [post_type] is
    the enumeration value of the first marker of the table that occurs in
    it. *)
Theorem post_type_earliest_marker :
  map fst Notification.post_types =
    [ "T_FEED_COMMENT"; "ST_FEED_COMMENT"; "_MEDIA_COMMENT"; "_MOMENT_COMMENT";
      "MOMENT_COMMENT"; "ARTIST_COMMENT"; "ARTIST_POST"; "ARTIST_MOMENT";
      "ARTIST_LIVE_ON_AIR"; "COMMUNITY_MEDIA"; "NOTICE";
      "COMMUNITY_ANNIVERSARY" ] /\
  forall (n : Notification.t) (s : string) before key value after,
    Notification.data n !! "messageId" = Some (VStr s) ->
    Notification.post_types = (before ++ (key, value) :: after)%list ->
    occurs_in key s ->
    (forall k v, In (k, v) before -> ~ occurs_in k s) ->
    Notification.post_type n = Ok (Notification.OPostTypes value).
Proof.
  split; [reflexivity|].
  intros n s before key value after E T Hkey Hbefore.
  unfold Notification.post_type. rewrite T.
  now apply post_type_loop_first with s.
Qed.

Lemma post_type_earliest_marker_witness :
  Notification.data Samples.notification !! "messageId"
    = Some (VStr "0-12_MEDIA_COMMENT") /\
  occurs_in "_MEDIA_COMMENT" "0-12_MEDIA_COMMENT" /\
  Notification.post_type Samples.notification
    = Ok (Notification.OPostTypes MEDIA_COMMENT).
Proof.
  split; [vm_compute; reflexivity|].
  split; [exists "0-12", ""; reflexivity|].
  apply (proj2 post_type_earliest_marker Samples.notification
           "0-12_MEDIA_COMMENT"
           [("T_FEED_COMMENT", USER_POST_COMMENT);
            ("ST_FEED_COMMENT", USER_POST_COMMENT)]
           "_MEDIA_COMMENT" MEDIA_COMMENT
           (skipn 3 Notification.post_types)).
  - vm_compute; reflexivity.
  - reflexivity.
  - exists "0-12", ""; reflexivity.
  - intros k v I. apply str_contains_false.
    destruct I as [I|[I|[]]]; inversion I; subst; reflexivity.
Defined.

(** C5: when [messageId] is a string in which none of the twelve markers
    occurs, [post_type] returns the string ["NOT IMPLEMENTED"], which is no
    enumeration value, and raises nothing. *)
Theorem post_type_unclassified (n : Notification.t) (s : string) :
  Notification.data n !! "messageId" = Some (VStr s) ->
  (forall k v, In (k, v) Notification.post_types -> ~ occurs_in k s) ->
  Notification.post_type n = Ok (Notification.OValue (VStr "NOT IMPLEMENTED")) /\
  forall p, Notification.post_type n <> Ok (Notification.OPostTypes p).
Proof.
  intros E Hnone.
  assert (R : Notification.post_type n
              = Ok (Notification.OValue (VStr "NOT IMPLEMENTED"))).
  { unfold Notification.post_type. now apply post_type_loop_none with s. }
  split; [exact R|]. intros p. rewrite R. discriminate.
Qed.

Lemma post_type_unclassified_witness :
  Notification.data (Samples.with_field "messageId" (VStr "4-77_WELCOME")) !! "messageId"
    = Some (VStr "4-77_WELCOME") /\
  Notification.post_type (Samples.with_field "messageId" (VStr "4-77_WELCOME"))
    = Ok (Notification.OValue (VStr "NOT IMPLEMENTED")).
Proof.
  split; [vm_compute; reflexivity|].
  apply (post_type_unclassified
           (Samples.with_field "messageId" (VStr "4-77_WELCOME")) "4-77_WELCOME").
  - vm_compute; reflexivity.
  - intros k v I. apply str_contains_false. cbn in I.
    repeat (destruct I as [I|I]; [inversion I; subst; reflexivity|]).
    destruct I.
Defined.

(** ** [re.search] *)

Import Re.

Lemma str_app_cons (c : ascii) (a b : string) :
  String c a ++ b = String c (a ++ b).
Proof. reflexivity. Qed.

Lemma str_app_assoc (a b c : string) : (a ++ b) ++ c = a ++ b ++ c.
Proof. induction a as [|x a IH]; [reflexivity|]. now rewrite !str_app_cons, IH. Qed.

Lemma str_length_app (a b : string) :
  String.length (a ++ b) = (String.length a + String.length b)%nat.
Proof. induction a as [|x a IH]; [reflexivity|]. rewrite str_app_cons. cbn. now rewrite IH. Qed.

Lemma str_app_inj_length (a a' b b' : string) :
  a ++ b = a' ++ b' -> String.length a = String.length a' -> a = a' /\ b = b'.
Proof.
  revert a'. induction a as [|x a IH]; intros [|x' a'] E L; try discriminate L.
  - split; [reflexivity | exact E].
  - rewrite !str_app_cons in E. inversion E; subst.
    destruct (IH a') as [-> ->]; [assumption | now inversion L |]. now split.
Qed.

Lemma str_take_app (w rest : string) : str_take (String.length w) (w ++ rest) = w.
Proof.
  induction w as [|c w IH]; [now destruct rest|].
  rewrite str_app_cons. cbn. now rewrite IH.
Qed.

Lemma consumed_app (w rest : string) : consumed (w ++ rest) rest = w.
Proof.
  unfold consumed. rewrite str_length_app.
  replace (String.length w + String.length rest - String.length rest)%nat
    with (String.length w) by lia.
  apply str_take_app.
Qed.

(** The words of [\d+]-like patterns: non-empty runs of the set. *)
Lemma lang_plus_chr (cs : charset) (w : string) :
  lang (Plus (Chr cs)) w <-> w <> "" /\ all_in cs w = true.
Proof.
  split.
  - intros L. remember (Plus (Chr cs)) as r eqn:R.
    induction L as [| | r w L _ | r w1 w2 L1 _ L2 IH2 |]; inversion R; subst.
    + inversion L; subst. cbn. split; [discriminate|].
      now rewrite andb_true_r.
    + inversion L1; subst. destruct (IH2 eq_refl) as [_ A].
      rewrite str_app_cons. cbn. split; [discriminate|].
      apply andb_true_iff. now split.
  - intros [N A]. induction w as [|c w IH]; [now destruct N|].
    cbn in A. apply andb_true_iff in A as [Ac Aw].
    destruct w as [|c' w].
    + apply lang_plus_one. now constructor.
    + change (String c (String c' w)) with (String c "" ++ String c' w).
      apply lang_plus_more; [now constructor|]. apply IH; [discriminate | exact Aw].
Qed.

(** A run of the set that is followed by a character outside the set is
    the longest one. *)
Lemma longest_run (cs : charset) (w rest w' rest' : string) :
  w ++ rest = w' ++ rest' ->
  all_in cs w' = true ->
  heads cs rest = false ->
  (String.length w' <= String.length w)%nat.
Proof.
  revert w'. induction w as [|c w IH]; intros [|c' w'] E A H; cbn; try lia.
  - change ("" ++ rest) with rest in E. subst rest.
    rewrite str_app_cons in H. cbn in H, A.
    apply andb_true_iff in A as [A _]. congruence.
  - rewrite !str_app_cons in E. injection E as _ E'.
    cbn in A. apply andb_true_iff in A as [_ A].
    specialize (IH w' E' A H). lia.
Qed.

Lemma total_accept : total accept.
Proof. intros s g. now exists (s, g). Qed.

Lemma plus_iter_S step (k : cont) (fuel : nat) (s : string) (g : groups) :
  plus_iter step k (S fuel) s g =
    step s g (fun s1 g1 => match plus_iter step k fuel s1 g1 with
                           | Some res => Some res
                           | None => k s1 g1
                           end).
Proof. reflexivity. Qed.

Lemma rmatch_chr_cons (cs : charset) (c : ascii) (s : string) (g : groups) (k : cont) :
  rmatch (Chr cs) (String c s) g k = if in_charset cs c then k s g else None.
Proof. reflexivity. Qed.

Lemma iter_chr_stop (cs : charset) (k : cont) (fuel : nat) (s : string) (g : groups) :
  heads cs s = false ->
  plus_iter (rmatch (Chr cs)) k fuel s g = None.
Proof.
  intros H. destruct fuel as [|fuel]; [reflexivity|].
  rewrite plus_iter_S. destruct s as [|c s]; [reflexivity|].
  rewrite rmatch_chr_cons. cbn in H. now rewrite H.
Qed.

(** Greedy iteration over a character set runs to the end of the run. *)
Lemma iter_chr_greedy (cs : charset) (k : cont) :
  total k ->
  forall (s : string) (fuel : nat) (g : groups),
    (String.length s < fuel)%nat ->
    heads cs s = true ->
    exists w rest,
      s = w ++ rest /\ w <> "" /\ all_in cs w = true /\
      heads cs rest = false /\
      plus_iter (rmatch (Chr cs)) k fuel s g = k rest g.
Proof.
  intros Hk. induction s as [|c s IH]; intros fuel g Hf Hh; [discriminate Hh|].
  destruct fuel as [|fuel]; [lia|].
  rewrite plus_iter_S, rmatch_chr_cons. cbn in Hh. rewrite Hh.
  destruct (heads cs s) eqn:Hs.
  - destruct (IH fuel g) as (w & rest & E & _ & A & Hr & R);
      [cbn in Hf; lia | reflexivity |].
    exists (String c w), rest. rewrite R.
    destruct (Hk rest g) as [res Eres]. rewrite Eres.
    repeat split; try assumption.
    + now rewrite str_app_cons, <- E.
    + discriminate.
    + cbn. now rewrite Hh, A.
  - rewrite (iter_chr_stop cs k fuel s g Hs).
    exists (String c ""), s. repeat split; try assumption.
    + discriminate.
    + cbn. now rewrite Hh.
Qed.

Lemma heads_app (cs : charset) (w rest : string) :
  w <> "" -> all_in cs w = true -> heads cs (w ++ rest) = true.
Proof.
  destruct w as [|c w]; intros N A; [now destruct N|].
  rewrite str_app_cons. cbn in *. now apply andb_true_iff in A as [A _].
Qed.

Ltac invert_lang :=
  repeat match goal with
         | L : lang (Group _ _) _ |- _ => inversion L; subst; clear L
         | L : lang (Seq _ _) _ |- _ => inversion L; subst; clear L
         | L : lang (Chr _) _ |- _ => inversion L; subst; clear L
         end.

(** The words of [([\d]-\d+)]: a digit, a hyphen, a non-empty run of
    digits. *)
Lemma lang_pattern (w : string) :
  lang Notification.pattern w <->
  exists d ds, w = String d (String "-" ds) /\ is_digit d = true /\
               ds <> "" /\ all_in Digit ds = true.
Proof.
  unfold Notification.pattern. split.
  - intros L. invert_lang.
    match goal with L : lang (Plus _) _ |- _ => apply lang_plus_chr in L as [N A] end.
    match goal with H : in_charset (Lit _) ?c = true |- _ =>
      cbn in H; apply Ascii.eqb_eq in H; subst c end.
    match goal with H : in_charset (Class _) _ = true |- _ =>
      cbn in H; rewrite orb_false_r in H end.
    eexists _, _. split; [reflexivity|]. auto.
  - intros (d & ds & -> & D & N & A).
    change (String d (String "-" ds)) with (String d "" ++ String "-" "" ++ ds).
    constructor. constructor; [|constructor].
    + constructor. cbn. now rewrite D.
    + constructor. reflexivity.
    + apply lang_plus_chr. now split.
Qed.

Lemma lang_nonempty (r : regex) (w : string) : lang r w -> w <> "".
Proof.
  induction 1 as [cs c _ | r1 r2 w1 w2 _ N1 _ _ | | r1 w1 w2 _ N1 _ _ |];
    try assumption; try discriminate.
  - destruct w1; [now destruct N1 | discriminate].
  - destruct w1; [now destruct N1 | discriminate].
Qed.

(** The matcher agrees with the words of the pattern, whatever the pattern:
    it only succeeds through a word of the pattern that the continuation
    accepts, and it succeeds when there is a word after which the
    continuation accepts. *)
Lemma rmatch_sound (r : regex) :
  forall s g k res,
    rmatch r s g k = Some res ->
    exists w rest g', s = w ++ rest /\ lang r w /\ k rest g' = Some res.
Proof.
  induction r as [cs | r1 IH1 r2 IH2 | r IH | n r IH]; intros s g k res M;
    cbn [rmatch] in M.
  - destruct s as [|c s]; [discriminate M|].
    destruct (in_charset cs c) eqn:C; [|discriminate M].
    exists (String c ""), s, g. split; [reflexivity|]. split; [now constructor | exact M].
  - apply IH1 in M as (w1 & s1 & g1 & -> & L1 & M).
    apply IH2 in M as (w2 & s2 & g2 & -> & L2 & M).
    exists (w1 ++ w2), s2, g2. rewrite str_app_assoc.
    split; [reflexivity|]. split; [now constructor | exact M].
  - remember (S (String.length s)) as fuel eqn:F. clear F. revert s g M.
    induction fuel as [|fuel IHf]; intros s g M; [discriminate M|].
    rewrite plus_iter_S in M.
    apply IH in M as (w1 & s1 & g1 & -> & L1 & M).
    destruct (plus_iter (rmatch r) k fuel s1 g1) as [res'|] eqn:It.
    + injection M as ->.
      apply IHf in It as (w2 & s2 & g2 & -> & L2 & M).
      exists (w1 ++ w2), s2, g2. rewrite str_app_assoc.
      split; [reflexivity|]. split; [now apply lang_plus_more | exact M].
    + exists w1, s1, g1. split; [reflexivity|].
      split; [now apply lang_plus_one | exact M].
  - apply IH in M as (w & rest & g' & -> & L & M).
    exists w, rest, ((n, consumed (w ++ rest) rest) :: g').
    split; [reflexivity|]. split; [now constructor | exact M].
Qed.

Lemma rmatch_complete (r : regex) :
  forall w rest g k,
    lang r w ->
    (forall g', exists res, k rest g' = Some res) ->
    exists res, rmatch r (w ++ rest) g k = Some res.
Proof.
  induction r as [cs | r1 IH1 r2 IH2 | r IH | n r IH]; intros w rest g k L K.
  - inversion L; subst. rewrite str_app_cons, rmatch_chr_cons.
    match goal with C : in_charset _ _ = true |- _ => rewrite C end. apply K.
  - inversion L; subst. rewrite str_app_assoc. cbn [rmatch].
    apply IH1; [assumption|]. intros g'. now apply IH2.
  - cbn [rmatch].
    assert (F : (String.length w < S (String.length (w ++ rest)))%nat)
      by (rewrite str_length_app; lia).
    revert F. generalize (S (String.length (w ++ rest))) as fuel.
    revert rest g K. remember (Plus r) as p eqn:P.
    induction L as [| | r' w L _ | r' w1 w2 L1 _ L2 IHL |];
      inversion P; subst; intros rest g K fuel F.
    + destruct fuel as [|fuel]; [lia|]. rewrite plus_iter_S.
      apply IH; [exact L|]. intros g'.
      destruct (plus_iter (rmatch r) k fuel rest g') as [res|]; [now exists res | apply K].
    + destruct fuel as [|fuel]; [lia|]. rewrite plus_iter_S, str_app_assoc.
      apply IH; [exact L1|]. intros g'.
      destruct (IHL eq_refl rest g' K fuel) as [res R].
      * apply lang_nonempty in L1. rewrite str_length_app in F.
        destruct w1; [now destruct L1 | cbn in F; lia].
      * rewrite R. now exists res.
  - inversion L; subst. cbn [rmatch]. apply IH; [assumption|].
    intros g'. apply K.
Qed.

Lemma digits_finds_longest : finds_longest Notification.digits.
Proof.
  intros s. unfold Notification.digits. cbn [rmatch].
  destruct (heads Digit s) eqn:H.
  - right.
    destruct (iter_chr_greedy Digit accept total_accept s (S (String.length s)) [])
      as (w & rest & E & N & A & Hr & R); [lia | exact H |].
    exists w, rest, []. split; [exact E|]. split; [exact R|]. split.
    + exists rest. split; [exact E|]. apply lang_plus_chr. now split.
    + intros w' rest' E' L'. apply lang_plus_chr in L' as [_ A'].
      apply (longest_run Digit w rest w' rest'); congruence.
  - left. split; [now apply iter_chr_stop|].
    intros w rest E L. apply lang_plus_chr in L as [N A].
    rewrite E, (heads_app _ _ _ N A) in H. discriminate H.
Qed.

Lemma pattern_prefix_inv (d c : ascii) (s2 w rest : string) :
  String d (String c s2) = w ++ rest ->
  lang Notification.pattern w ->
  is_digit d = true /\ c = "-"%char /\
  exists ds, w = String d (String "-" ds) /\ s2 = ds ++ rest /\
             ds <> "" /\ all_in Digit ds = true.
Proof.
  intros E L. apply lang_pattern in L as (d' & ds & -> & D & N & A).
  rewrite !str_app_cons in E. injection E as -> -> ->.
  split; [exact D|]. split; [reflexivity|]. now exists ds.
Qed.

Lemma pattern_rmatch (d c : ascii) (s2 : string) :
  rmatch Notification.pattern (String d (String c s2)) [] accept =
    if is_digit d then
      if Ascii.eqb c "-" then
        plus_iter (rmatch (Chr Digit))
          (fun s1 g1 => accept s1 ((1, consumed (String d (String c s2)) s1) :: g1))
          (S (String.length s2)) s2 []
      else None
    else None.
Proof.
  unfold Notification.pattern. cbn [rmatch in_charset existsb].
  rewrite orb_false_r. reflexivity.
Qed.

(** At every position, [([\d]-\d+)] yields the longest word that starts
    there, recorded as group 1. *)
Lemma pattern_at_start (s : string) :
  (rmatch Notification.pattern s [] accept = None /\ no_prefix Notification.pattern s) \/
  (exists w rest,
     s = w ++ rest /\
     rmatch Notification.pattern s [] accept = Some (rest, [(1, w)]) /\
     longest_prefix Notification.pattern s w).
Proof.
  destruct s as [|d [|c s2]].
  - left. split; [reflexivity|]. intros w rest E L.
    apply lang_pattern in L as (d & ds & -> & _). discriminate E.
  - left. split.
    + unfold Notification.pattern. cbn. now destruct (is_digit d).
    + intros w rest E L. apply lang_pattern in L as (d' & ds & -> & _).
      rewrite !str_app_cons in E. discriminate E.
  - rewrite pattern_rmatch.
    destruct (is_digit d) eqn:D.
    2:{ left. split; [reflexivity|]. intros w rest E L.
        destruct (pattern_prefix_inv _ _ _ _ _ E L) as (D' & _). congruence. }
    destruct (Ascii.eqb c "-") eqn:C.
    2:{ left. split; [reflexivity|]. intros w rest E L.
        destruct (pattern_prefix_inv _ _ _ _ _ E L) as (_ & -> & _).
        rewrite Ascii.eqb_refl in C. discriminate C. }
    apply Ascii.eqb_eq in C. subst c.
    destruct (heads Digit s2) eqn:H.
    2:{ left. split; [now apply iter_chr_stop|]. intros w rest E L.
        destruct (pattern_prefix_inv _ _ _ _ _ E L) as (_ & _ & ds & _ & -> & N & A).
        rewrite (heads_app _ _ _ N A) in H. discriminate H. }
    right.
    set (k := fun s1 g1 => accept s1 ((1, consumed (String d (String "-" s2)) s1) :: g1)).
    assert (Hk : total k) by (intros s1 g1; eexists; reflexivity).
    destruct (iter_chr_greedy Digit k Hk s2 (S (String.length s2)) [])
      as (ds & rest & E & N & A & Hr & R); [lia | exact H |].
    exists (String d (String "-" ds)), rest.
    assert (Es : String d (String "-" s2) = String d (String "-" ds) ++ rest).
    { rewrite !str_app_cons. now rewrite E. }
    split; [exact Es|]. split.
    + etransitivity; [exact R|]. unfold k, accept. now rewrite Es, consumed_app.
    + split.
      * exists rest. split; [exact Es|]. apply lang_pattern.
        exists d, ds. auto.
      * intros w' rest' E' L'.
        destruct (pattern_prefix_inv _ _ _ _ _ E' L') as (_ & _ & ds' & -> & E2 & N' & A').
        cbn. apply le_n_S, le_n_S.
        apply (longest_run Digit ds rest ds' rest'); congruence.
Qed.

Lemma pattern_finds_longest : finds_longest Notification.pattern.
Proof.
  intros s. destruct (pattern_at_start s) as [?|(w & rest & ? & ? & ?)];
    [now left | right; now exists w, rest, [(1, w)]].
Qed.

(** The scan over the start positions. *)
Section Search.

Variable r : regex.
Hypothesis finds : finds_longest r.

Lemma search_from_none (s : string) :
  forall i, search_from r i s = None ->
  forall pre w, ~ match_at r s pre w.
Proof.
  induction s as [|c s IH]; intros i Hs pre w (rest & E & L);
    cbn [search_from] in Hs.
  - destruct (finds "") as [[R N] | (w0 & rest0 & g & _ & R & _)];
      [|rewrite R in Hs; discriminate Hs].
    destruct pre; [|discriminate E]. now apply (N w rest).
  - destruct (finds (String c s)) as [[R N] | (w0 & rest0 & g & _ & R & _)];
      [|rewrite R in Hs; discriminate Hs].
    rewrite R in Hs. destruct pre as [|c' pre].
    + now apply (N w rest).
    + rewrite str_app_cons in E. injection E as _ E'.
      apply (IH (S i) Hs pre w). now exists rest.
Qed.

Lemma search_from_some (s : string) :
  forall i m, search_from r i s = Some m -> first_match r s (group0 m).
Proof.
  induction s as [|c s IH]; intros i m Hs; cbn [search_from] in Hs.
  - destruct (finds "") as [[R N] | (w & rest & g & E & R & (_ & _ & L) & _)];
      rewrite R in Hs; [discriminate Hs|].
    injection Hs as <-. cbn [group0].
    replace (consumed "" rest) with w by (rewrite E; symmetry; apply consumed_app).
    exists "". split; [now exists rest|].
    intros pre' w' (rest' & E' & L').
    destruct pre'; [|discriminate E']. destruct w'; [|discriminate E'].
    cbn. split; lia.
  - destruct (finds (String c s))
      as [[R N] | (w & rest & g & E & R & (_ & _ & L) & Long)];
      rewrite R in Hs.
    + destruct (IH (S i) m Hs) as (pre & (rest & E & L) & B).
      exists (String c pre). split.
      * exists rest. split; [|exact L]. rewrite str_app_cons. now rewrite <- E.
      * intros pre' w' (rest' & E' & L').
        destruct pre' as [|c' pre'].
        { destruct (N w' rest' E' L'). }
        rewrite str_app_cons in E'. injection E' as _ E''.
        destruct (B pre' w') as [B1 B2]; [now exists rest'|].
        cbn. split; [lia|]. intros Eq. apply B2. lia.
    + injection Hs as <-. cbn [group0].
      replace (consumed (String c s) rest) with w
        by (rewrite E; symmetry; apply consumed_app).
      exists "". split.
      * exists rest. split; [exact E | exact L].
      * intros pre' w' (rest' & E' & L'). split; [cbn; lia|].
        intros Eq. destruct pre'; [|discriminate Eq].
        now apply (Long w' rest').
Qed.

Lemma search_from_finds (s pre w : string) :
  match_at r s pre w -> forall i, exists m, search_from r i s = Some m.
Proof.
  intros M i. destruct (search_from r i s) as [m|] eqn:Hs; [now exists m|].
  destruct (search_from_none s i Hs pre w M).
Qed.

End Search.

(** The first match is determined by the subject. *)
Lemma first_match_unique (r : regex) (s w w' : string) :
  first_match r s w -> first_match r s w' -> w = w'.
Proof.
  intros (pre & M & B) (pre' & M' & B').
  destruct (B pre' w' M') as [L1 L2]. destruct (B' pre w M) as [L1' L2'].
  assert (Lp : String.length pre = String.length pre') by lia.
  specialize (L2 (eq_sym Lp)). specialize (L2' Lp).
  destruct M as (rest & E & _). destruct M' as (rest' & E' & _).
  rewrite E in E'.
  destruct (str_app_inj_length _ _ _ _ E' Lp) as [_ E2].
  apply (str_app_inj_length _ _ _ _ E2). lia.
Qed.

Lemma search_pattern_captures (s : string) :
  forall i m, search_from Notification.pattern i s = Some m ->
  captures m = [(1, group0 m)].
Proof.
  induction s as [|c s IH]; intros i m Hs; cbn [search_from] in Hs.
  - destruct (pattern_at_start "") as [[R _] | (w & rest & E & R & _)];
      rewrite R in Hs; [discriminate Hs|].
    injection Hs as <-. cbn [captures group0].
    now replace (consumed "" rest) with w by (rewrite E; symmetry; apply consumed_app).
  - destruct (pattern_at_start (String c s)) as [[R _] | (w & rest & E & R & _)];
      rewrite R in Hs; [now apply (IH (S i))|].
    injection Hs as <-. cbn [captures group0].
    now replace (consumed (String c s) rest) with w
      by (rewrite E; symmetry; apply consumed_app).
Qed.

(** ** [post_id] *)

Lemma post_id_str (n : Notification.t) (s : string) :
  Notification.data n !! "messageId" = Some (VStr s) ->
  Notification.post_id n =
    match search_from Notification.pattern 0 s with
    | Some m => Ok (VStr (group0 m))
    | None =>
        match search_from Notification.digits 0 s with
        | Some m => Ok (VStr (group0 m))
        | None => Raise AttributeError
        end
    end.
Proof.
  intros E. unfold Notification.post_id, getitem.
  cbn [bind subscript]. rewrite E. cbn [bind search].
  destruct (search_from Notification.pattern 0 s); [reflexivity|].
  cbn [bind]. destruct (search_from Notification.digits 0 s); reflexivity.
Qed.

(** C4: the words of [([\d]-\d+)] are a digit, a hyphen and one or more
    digits, those of [\d+] the runs of one or more digits.  When [messageId]
    is a string, [post_id] returns its first match of the former (leftmost,
    and longest from there), which the search also records as group 1; when
    the string has no such match, [post_id] returns its first run of
    digits. *)
Theorem post_id_first_match (n : Notification.t) (s : string) :
  Notification.data n !! "messageId" = Some (VStr s) ->
  (forall w, lang Notification.pattern w <->
             exists d ds, w = String d (String "-" ds) /\ is_digit d = true /\
                          ds <> "" /\ all_in Digit ds = true) /\
  (forall w, lang Notification.digits w <-> w <> "" /\ all_in Digit w = true) /\
  (forall w, first_match Notification.pattern s w ->
     Notification.post_id n = Ok (VStr w) /\
     exists m, search Notification.pattern (VStr s) = Ok (Some m) /\
               group m 1 = Ok (VStr w)) /\
  ((forall pre w, ~ match_at Notification.pattern s pre w) ->
   forall w, first_match Notification.digits s w ->
     Notification.post_id n = Ok (VStr w)).
Proof.
  intros E. rewrite (post_id_str n s E).
  split; [exact lang_pattern|]. split; [intros w; apply lang_plus_chr|]. split.
  - intros w F. destruct F as (pre & M & B).
    destruct (search_from_finds _ pattern_finds_longest s pre w M 0) as [m Hs].
    assert (W : group0 m = w).
    { apply (first_match_unique Notification.pattern s).
      - now apply (search_from_some _ pattern_finds_longest s 0).
      - now exists pre. }
    rewrite Hs, W. split; [reflexivity|].
    exists m. split; [cbn [search]; now rewrite Hs|].
    unfold group. rewrite (search_pattern_captures s 0 m Hs). cbn. now rewrite W.
  - intros Hno w F.
    destruct (search_from Notification.pattern 0 s) as [m|] eqn:Hs.
    + destruct (search_from_some _ pattern_finds_longest s 0 m Hs) as (pre & M & _).
      destruct (Hno pre _ M).
    + destruct F as (pre & M & B).
      destruct (search_from_finds _ digits_finds_longest s pre w M 0) as [m Hs'].
      rewrite Hs'. do 2 f_equal.
      apply (first_match_unique Notification.digits s).
      * now apply (search_from_some _ digits_finds_longest s 0).
      * now exists pre.
Qed.

Lemma post_id_first_match_witness :
  Notification.data (Samples.with_field "messageId" (VStr "NOTICE123")) !! "messageId"
    = Some (VStr "NOTICE123") /\
  Notification.post_id (Samples.with_field "messageId" (VStr "NOTICE123"))
    = Ok (VStr "123") /\
  Notification.post_id Samples.notification = Ok (VStr "0-12").
Proof.
  split; [vm_compute; reflexivity|]. split.
  - apply (proj2 (proj2 (proj2
      (post_id_first_match (Samples.with_field "messageId" (VStr "NOTICE123"))
         "NOTICE123" ltac:(vm_compute; reflexivity))))).
    + apply (search_from_none _ pattern_finds_longest "NOTICE123" 0).
      vm_compute; reflexivity.
    + apply (search_from_some _ digits_finds_longest "NOTICE123" 0
               {| start := 6; group0 := "123"; captures := [] |}).
      vm_compute; reflexivity.
  - apply (proj1 (proj2 (proj2
      (post_id_first_match Samples.notification
         "0-12_MEDIA_COMMENT" ltac:(vm_compute; reflexivity))))).
    apply (search_from_some _ pattern_finds_longest "0-12_MEDIA_COMMENT" 0
             {| start := 0; group0 := "0-12"; captures := [(1, "0-12")] |}).
    vm_compute; reflexivity.
Defined.

(** C10: when [messageId] is a string that contains a decimal digit, the
    search for [\d+] matches, so one of the two searches of [post_id] yields a
    match object, and [post_id] returns a string. *)
Theorem post_id_succeeds_with_digit (n : Notification.t) (s : string) :
  Notification.data n !! "messageId" = Some (VStr s) ->
  (exists before c after, s = before ++ String c after /\ is_digit c = true) ->
  (exists m, search Notification.digits (VStr s) = Ok (Some m)) /\
  ((exists m, search Notification.pattern (VStr s) = Ok (Some m)) \/
   (search Notification.pattern (VStr s) = Ok None /\
    exists m, search Notification.digits (VStr s) = Ok (Some m))) /\
  exists w, Notification.post_id n = Ok (VStr w).
Proof.
  intros E (before & c & after & Es & D).
  assert (M : match_at Notification.digits s before (String c "")).
  { exists after. split; [exact Es|]. apply lang_plus_one. now constructor. }
  destruct (search_from_finds _ digits_finds_longest s _ _ M 0) as [m Hs].
  rewrite (post_id_str n s E). cbn [search]. rewrite Hs.
  split; [now exists m|].
  destruct (search_from Notification.pattern 0 s) as [m1|].
  - split; [left; now exists m1 | now exists (group0 m1)].
  - split; [right; split; [reflexivity | now exists m] | now exists (group0 m)].
Qed.

Lemma post_id_succeeds_with_digit_witness :
  Notification.data (Samples.with_field "messageId" (VStr "NOTICE123")) !! "messageId"
    = Some (VStr "NOTICE123") /\
  (exists before c after,
     "NOTICE123" = before ++ String c after /\ is_digit c = true) /\
  exists w, Notification.post_id (Samples.with_field "messageId" (VStr "NOTICE123"))
            = Ok (VStr w).
Proof.
  assert (D : exists before c after,
            "NOTICE123" = before ++ String c after /\ is_digit c = true).
  { exists "NOTICE", "1"%char, "23". split; reflexivity. }
  split; [vm_compute; reflexivity|]. split; [exact D|].
  apply (proj2 (proj2
    (post_id_succeeds_with_digit
       (Samples.with_field "messageId" (VStr "NOTICE123")) "NOTICE123"
       ltac:(vm_compute; reflexivity) D))).
Defined.

(** * Further properties *)

(** ** The constructor *)

(** A constructed notification keeps the payload and holds, in every slot,
    the value that the payload has at the slot's source path. *)
Theorem init_reads_fields (P : gmap string value) (n : Notification.t) :
  Notification.__init__ P = Ok n ->
  Notification.data n = P /\
  walk (VDict P) ["activityId"] = Found (Notification.id n) /\
  walk (VDict P) ["read"] = Found (Notification.is_read n) /\
  walk (VDict P) ["title"] = Found (Notification.title n) /\
  walk (VDict P) ["message"; "values"; "ko"] = Found (Notification.message_ko n) /\
  walk (VDict P) ["message"; "values"; "ja"] = Found (Notification.message_ja n) /\
  walk (VDict P) ["message"; "values"; "en"] = Found (Notification.message_en n) /\
  walk (VDict P) ["logoImageUrl"] = Found (Notification.logo_image_url n) /\
  Notification.image_url n = dict_get P "imageUrl" /\
  walk (VDict P) ["webUrl"] = Found (Notification.web_url n) /\
  walk (VDict P) ["time"] = Found (Notification.time_created n) /\
  walk (VDict P) ["count"] = Found (Notification.count n) /\
  walk (VDict P) ["community"; "communityId"] = Found (Notification.community_id n).
Proof.
  rewrite init_read. intros H.
  repeat (step_read H; [|discriminate H]).
  inversion H; subst; clear H. cbn [Notification.data Notification.id
    Notification.is_read Notification.title Notification.message_ko
    Notification.message_ja Notification.message_en
    Notification.logo_image_url Notification.image_url Notification.web_url
    Notification.time_created Notification.count Notification.community_id].
  unfold read in *.
  repeat match goal with
         | E : outcome _ = Ok _ |- _ => apply outcome_ok in E
         end.
  repeat split; assumption.
Qed.

Lemma init_reads_fields_witness :
  Notification.__init__ Samples.payload = Ok Samples.notification /\
  walk (VDict Samples.payload) ["message"; "values"; "en"]
    = Found (Notification.message_en Samples.notification).
Proof.
  split; [vm_compute; reflexivity|].
  apply (init_reads_fields Samples.payload Samples.notification).
  vm_compute; reflexivity.
Defined.

Ltac first_absent_at i :=
  match goal with
  | E : read _ ?p = Raise _ |- _ =>
      refine (ex_intro _ (firstn i required)
                (ex_intro _ p
                   (ex_intro _ (skipn (S i) required)
                      (conj eq_refl (conj _ E)))));
      cbn [firstn required];
      repeat constructor;
      eexists; apply outcome_ok; eassumption
  end.

(** When the construction fails, the error is the one of the first field, in
    the order of the assignments, that the payload has no value for: every
    field before it was read. *)
Theorem init_raises_first_absent (P : gmap string value) (e : exn) :
  Notification.__init__ P = Raise e ->
  exists before path after,
    required = (before ++ path :: after)%list /\
    Forall (fun p => exists v, walk (VDict P) p = Found v) before /\
    outcome (walk (VDict P) path) = Raise e.
Proof.
  rewrite init_read. intros H.
  repeat (step_read H;
          [| inversion H; subst;
             first [ first_absent_at 0 | first_absent_at 1 | first_absent_at 2
                   | first_absent_at 3 | first_absent_at 4 | first_absent_at 5
                   | first_absent_at 6 | first_absent_at 7 | first_absent_at 8
                   | first_absent_at 9 | first_absent_at 10 ] ]).
  discriminate H.
Qed.

Lemma init_raises_first_absent_witness :
  Notification.__init__ (delete "title" (delete "count" Samples.payload))
    = Raise (KeyError (VStr "title")) /\
  exists before path after,
    required = (before ++ path :: after)%list /\
    Forall (fun p => exists v,
              walk (VDict (delete "title" (delete "count" Samples.payload))) p
                = Found v) before /\
    outcome (walk (VDict (delete "title" (delete "count" Samples.payload))) path)
      = Raise (KeyError (VStr "title")).
Proof.
  split; [vm_compute; reflexivity|].
  apply (init_raises_first_absent
           (delete "title" (delete "count" Samples.payload))
           (KeyError (VStr "title"))).
  vm_compute; reflexivity.
Defined.

(** ** [messageId] *)

Lemma message_id_absent (n : Notification.t) :
  Notification.data n !! "messageId" = None ->
  getitem (Ok (VDict (Notification.data n))) (VStr "messageId")
    = Raise (KeyError (VStr "messageId")).
Proof. intros E. unfold getitem. cbn [bind subscript]. now rewrite E. Qed.

(** The constructor does not read [messageId]: a payload without it yields a
    notification, on which [post_id] and [post_type] then raise
    [KeyError('messageId')]. *)
Theorem message_id_needed_after_init (P : gmap string value) (n : Notification.t) :
  Notification.__init__ P = Ok n ->
  P !! "messageId" = None ->
  Notification.post_id n = Raise (KeyError (VStr "messageId")) /\
  Notification.post_type n = Raise (KeyError (VStr "messageId")).
Proof.
  intros I E. apply init_inv in I. destruct I as (D & _).
  rewrite <- D in E. split.
  - unfold Notification.post_id. now rewrite (message_id_absent n E).
  - unfold Notification.post_type, Notification.post_types.
    cbn [Notification.post_type_loop]. now rewrite (message_id_absent n E).
Qed.

Lemma message_id_needed_after_init_witness :
  Notification.__init__ (delete "messageId" Samples.payload)
    = Ok (Samples.without_field "messageId") /\
  delete "messageId" Samples.payload !! "messageId" = None /\
  Notification.post_id (Samples.without_field "messageId")
    = Raise (KeyError (VStr "messageId")) /\
  Notification.post_type (Samples.without_field "messageId")
    = Raise (KeyError (VStr "messageId")).
Proof.
  split; [vm_compute; reflexivity|]. split; [vm_compute; reflexivity|].
  apply (message_id_needed_after_init (delete "messageId" Samples.payload));
    vm_compute; reflexivity.
Defined.

(** A [messageId] that is not a string makes [post_id] raise [TypeError];
    [post_type] raises [TypeError] when it is [None], a boolean or an
    integer. *)
Theorem message_id_not_a_string (n : Notification.t) (v : value) :
  Notification.data n !! "messageId" = Some v ->
  (forall s, v <> VStr s) ->
  Notification.post_id n = Raise TypeError /\
  ((forall l, v <> VList l) -> (forall m, v <> VDict m) ->
   Notification.post_type n = Raise TypeError).
Proof.
  intros E N.
  assert (G : getitem (Ok (VDict (Notification.data n))) (VStr "messageId") = Ok v).
  { unfold getitem. cbn [bind subscript]. now rewrite E. }
  split.
  - unfold Notification.post_id. rewrite G. cbn [bind].
    destruct v; try reflexivity. now destruct (N s).
  - intros NL ND. unfold Notification.post_type, Notification.post_types.
    cbn [Notification.post_type_loop]. rewrite G. cbn [bind].
    destruct v; try reflexivity;
      [now destruct (N s) | now destruct (NL l) | now destruct (ND m)].
Qed.

Lemma message_id_not_a_string_witness :
  Notification.data (Samples.with_field "messageId" (VInt 12)) !! "messageId"
    = Some (VInt 12) /\
  Notification.post_id (Samples.with_field "messageId" (VInt 12)) = Raise TypeError /\
  Notification.post_type (Samples.with_field "messageId" (VInt 12)) = Raise TypeError.
Proof.
  split; [vm_compute; reflexivity|].
  destruct (message_id_not_a_string (Samples.with_field "messageId" (VInt 12)) (VInt 12))
    as [A B]; [vm_compute; reflexivity | discriminate |].
  split; [exact A|]. apply B; discriminate.
Defined.

(** ** [post_id] on a string *)

Lemma str_app_split (a b a' b' : string) :
  a ++ b = a' ++ b' ->
  (String.length a' < String.length a)%nat ->
  exists x, x <> "" /\ a = a' ++ x /\ b' = x ++ b.
Proof.
  revert a. induction a' as [|c a' IH]; intros a E L.
  - exists a. split; [|split; [reflexivity | now symmetry]].
    destruct a; [cbn in L; lia | discriminate].
  - destruct a as [|c0 a]; [cbn in L; lia|].
    rewrite !str_app_cons in E. injection E as -> E.
    destruct (IH a E) as (x & N & -> & ->); [cbn in L; lia|].
    exists x. now rewrite str_app_cons.
Qed.

Lemma all_in_app (cs : charset) (a b : string) :
  all_in cs (a ++ b) = all_in cs a && all_in cs b.
Proof.
  induction a as [|c a IH]; [reflexivity|].
  rewrite str_app_cons. cbn. now rewrite IH, andb_assoc.
Qed.

Lemma all_in_head (cs : charset) (w : string) :
  w <> "" -> all_in cs w = true ->
  exists c w', w = String c w' /\ in_charset cs c = true.
Proof.
  destruct w as [|c w]; intros N A; [now destruct N|].
  cbn in A. apply andb_true_iff in A as [A _]. now exists c, w.
Qed.

Lemma post_id_pattern_match (n : Notification.t) (s w : string) :
  Notification.data n !! "messageId" = Some (VStr s) ->
  first_match Notification.pattern s w ->
  Notification.post_id n = Ok (VStr w).
Proof.
  intros E (pre & M & B). rewrite (post_id_str n s E).
  destruct (search_from_finds _ pattern_finds_longest s pre w M 0) as [m Hs].
  rewrite Hs. do 2 f_equal.
  apply (first_match_unique Notification.pattern s).
  - now apply (search_from_some _ pattern_finds_longest s 0).
  - now exists pre.
Qed.

Lemma post_id_digits_match (n : Notification.t) (s w : string) :
  Notification.data n !! "messageId" = Some (VStr s) ->
  (forall pre w', ~ match_at Notification.pattern s pre w') ->
  first_match Notification.digits s w ->
  Notification.post_id n = Ok (VStr w).
Proof.
  intros E Hno (pre & M & B). rewrite (post_id_str n s E).
  destruct (search_from Notification.pattern 0 s) as [m|] eqn:Hp.
  - destruct (search_from_some _ pattern_finds_longest s 0 m Hp) as (pre' & M' & _).
    destruct (Hno pre' _ M').
  - destruct (search_from_finds _ digits_finds_longest s pre w M 0) as [m Hs].
    rewrite Hs. do 2 f_equal.
    apply (first_match_unique Notification.digits s).
    + now apply (search_from_some _ digits_finds_longest s 0).
    + now exists pre.
Qed.

(** On a string [messageId], the only error of [post_id] is
    [AttributeError], and it is raised exactly when the string has no
    decimal digit. *)
Theorem post_id_attribute_error_iff (n : Notification.t) (s : string) :
  Notification.data n !! "messageId" = Some (VStr s) ->
  (Notification.post_id n = Raise AttributeError <->
   forall before c after, s = before ++ String c after -> is_digit c = false) /\
  (forall e, Notification.post_id n = Raise e -> e = AttributeError).
Proof.
  intros E. rewrite (post_id_str n s E).
  destruct (search_from Notification.pattern 0 s) as [m|] eqn:Hp.
  - split; [split; [discriminate|] | discriminate].
    intros Hno.
    destruct (search_from_some _ pattern_finds_longest s 0 m Hp)
      as (pre & (rest & Es & L) & _).
    apply lang_pattern in L as (d & ds & Ew & D & _).
    rewrite Ew, !str_app_cons in Es.
    rewrite (Hno _ _ _ Es) in D. discriminate D.
  - destruct (search_from Notification.digits 0 s) as [m|] eqn:Hd.
    + split; [split; [discriminate|] | discriminate].
      intros Hno.
      destruct (search_from_some _ digits_finds_longest s 0 m Hd)
        as (pre & (rest & Es & L) & _).
      apply lang_plus_chr in L as [N A].
      destruct (all_in_head _ _ N A) as (c & w' & Ew & D).
      rewrite Ew, str_app_cons in Es.
      cbn in D. rewrite (Hno _ _ _ Es) in D. discriminate D.
    + split; [split; [intros _ | reflexivity] | now intros e [= <-]].
      intros before c after Es. destruct (is_digit c) eqn:D; [|reflexivity].
      destruct (search_from_none _ digits_finds_longest s 0 Hd before (String c "")).
      exists after. split; [exact Es|]. apply lang_plus_one. now constructor.
Qed.

Lemma post_id_attribute_error_iff_witness :
  Notification.data (Samples.with_field "messageId" (VStr "WELCOME")) !! "messageId"
    = Some (VStr "WELCOME") /\
  Notification.post_id (Samples.with_field "messageId" (VStr "WELCOME"))
    = Raise AttributeError /\
  forall before c after, "WELCOME" = before ++ String c after -> is_digit c = false.
Proof.
  split; [vm_compute; reflexivity|].
  assert (R : Notification.post_id (Samples.with_field "messageId" (VStr "WELCOME"))
              = Raise AttributeError) by (vm_compute; reflexivity).
  split; [exact R|].
  apply (proj1 (proj1 (post_id_attribute_error_iff
           (Samples.with_field "messageId" (VStr "WELCOME")) "WELCOME"
           ltac:(vm_compute; reflexivity)))).
  exact R.
Defined.

Lemma post_id_ok_inv (n : Notification.t) (s : string) (v : value) :
  Notification.data n !! "messageId" = Some (VStr s) ->
  Notification.post_id n = Ok v ->
  exists m, v = VStr (group0 m) /\
    (search_from Notification.pattern 0 s = Some m \/
     (search_from Notification.pattern 0 s = None /\
      search_from Notification.digits 0 s = Some m)).
Proof.
  intros E. rewrite (post_id_str n s E).
  destruct (search_from Notification.pattern 0 s) as [m|] eqn:Hp.
  - intros [= <-]. exists m. split; [reflexivity | now left].
  - destruct (search_from Notification.digits 0 s) as [m|] eqn:Hd; [|discriminate].
    intros [= <-]. exists m. split; [reflexivity | now right].
Qed.

(** What [post_id] returns is a piece of [messageId]: either a digit, a
    hyphen and a run of digits, or, when no such piece exists, a run of
    digits. *)
Theorem post_id_result_shape (n : Notification.t) (s : string) (v : value) :
  Notification.data n !! "messageId" = Some (VStr s) ->
  Notification.post_id n = Ok v ->
  exists w,
    v = VStr w /\ occurs_in w s /\
    ((exists d ds, w = String d (String "-" ds) /\ is_digit d = true /\
                   ds <> "" /\ all_in Digit ds = true) \/
     (w <> "" /\ all_in Digit w = true /\
      forall pre w', ~ match_at Notification.pattern s pre w')).
Proof.
  intros E R.
  destruct (post_id_ok_inv n s v E R) as (m & -> & [Hp | [Hp Hd]]);
    exists (group0 m); (split; [reflexivity|]).
  - destruct (search_from_some _ pattern_finds_longest s 0 m Hp)
      as (pre & (rest & Es & L) & _).
    split; [now exists pre, rest|]. left. now apply lang_pattern.
  - destruct (search_from_some _ digits_finds_longest s 0 m Hd)
      as (pre & (rest & Es & L) & _).
    split; [now exists pre, rest|]. right.
    apply lang_plus_chr in L as [N A]. split; [exact N|]. split; [exact A|].
    now apply (search_from_none _ pattern_finds_longest s 0).
Qed.

Lemma post_id_result_shape_witness :
  Notification.data Samples.notification !! "messageId"
    = Some (VStr "0-12_MEDIA_COMMENT") /\
  Notification.post_id Samples.notification = Ok (VStr "0-12") /\
  exists w, VStr "0-12" = VStr w /\ occurs_in w "0-12_MEDIA_COMMENT".
Proof.
  split; [vm_compute; reflexivity|]. split; [vm_compute; reflexivity|].
  destruct (post_id_result_shape Samples.notification "0-12_MEDIA_COMMENT"
              (VStr "0-12") ltac:(vm_compute; reflexivity)
              ltac:(vm_compute; reflexivity))
    as (w & Ev & O & _).
  now exists w.
Defined.

Lemma hyphen_not_digit (d : ascii) : is_digit d = true -> d <> "-"%char.
Proof. intros D ->. discriminate D. Qed.

(** A hyphen between a digit and a run of digits, with no hyphen before it,
    is where the first match of [([\d]-\d+)] is. *)
Lemma first_match_at_first_hyphen (pre : string) (d : ascii) (ds rest : string) :
  ~ occurs_in "-" pre ->
  is_digit d = true ->
  ds <> "" -> all_in Digit ds = true ->
  heads Digit rest = false ->
  first_match Notification.pattern
    (pre ++ String d (String "-" (ds ++ rest))) (String d (String "-" ds)).
Proof.
  intros Hpre D N A Hr.
  exists pre. split.
  { exists rest. split; [now rewrite !str_app_cons|].
    apply lang_pattern. now exists d, ds. }
  intros pre' w' (rest' & E' & L').
  apply lang_pattern in L' as (d' & ds' & -> & D' & N' & A').
  rewrite !str_app_cons in E'.
  assert (Le : (String.length pre <= String.length pre')%nat).
  { destruct (Nat.le_gt_cases (String.length pre) (String.length pre'))
      as [Le|Gt]; [exact Le|].
    destruct (str_app_split _ _ _ _ E' Gt) as (x & Nx & Epre & Ex).
    destruct x as [|c x]; [now destruct Nx|].
    rewrite str_app_cons in Ex. injection Ex as <- Ex.
    destruct x as [|c' x].
    - change ("" ++ String d (String "-" (ds ++ rest)))
        with (String d (String "-" (ds ++ rest))) in Ex.
      injection Ex as <- _. now destruct (hyphen_not_digit _ D).
    - rewrite str_app_cons in Ex. injection Ex as <- _.
      destruct Hpre. exists (pre' ++ String d' ""), x.
      rewrite Epre, str_app_assoc. reflexivity. }
  split; [exact Le|]. intros Eq.
  destruct (str_app_inj_length _ _ _ _ E' (eq_sym Eq)) as [_ E2].
  injection E2 as _ E2. cbn. apply le_n_S, le_n_S.
  apply (longest_run Digit ds rest ds' rest'); [exact E2 | exact A' | exact Hr].
Qed.

(** Only one digit is kept in front of the hyphen: when [messageId] has its
    first hyphen right after a digit [d] and a run of digits [ds] follows the
    hyphen, [post_id] is [d], the hyphen and [ds], whatever digits precede
    [d]. *)
Theorem post_id_one_digit_before_hyphen
    (n : Notification.t) (pre : string) (d : ascii) (ds rest : string) :
  Notification.data n !! "messageId"
    = Some (VStr (pre ++ String d (String "-" (ds ++ rest)))) ->
  ~ occurs_in "-" pre ->
  is_digit d = true ->
  ds <> "" -> all_in Digit ds = true ->
  heads Digit rest = false ->
  Notification.post_id n = Ok (VStr (String d (String "-" ds))).
Proof.
  intros E Hpre D N A Hr.
  apply (post_id_pattern_match n _ _ E).
  now apply first_match_at_first_hyphen.
Qed.

Lemma post_id_one_digit_before_hyphen_witness :
  Notification.data (Samples.with_field "messageId" (VStr "12-345_ARTIST_POST"))
    !! "messageId"
    = Some (VStr ("1" ++ String "2" (String "-" ("345" ++ "_ARTIST_POST")))) /\
  Notification.post_id (Samples.with_field "messageId" (VStr "12-345_ARTIST_POST"))
    = Ok (VStr "2-345").
Proof.
  split; [vm_compute; reflexivity|].
  apply (post_id_one_digit_before_hyphen
           (Samples.with_field "messageId" (VStr "12-345_ARTIST_POST"))
           "1" "2"%char "345" "_ARTIST_POST").
  - vm_compute; reflexivity.
  - apply str_contains_false. reflexivity.
  - reflexivity.
  - discriminate.
  - reflexivity.
  - reflexivity.
Defined.

Lemma str_app_nil_r (s : string) : s ++ "" = s.
Proof. induction s as [|c s IH]; [reflexivity|]. now rewrite str_app_cons, IH. Qed.

Lemma digits_without_pattern (w : string) :
  all_in Digit w = true ->
  forall pre w', ~ match_at Notification.pattern w pre w'.
Proof.
  intros A pre w' (rest & E & L).
  apply lang_pattern in L as (d & ds & -> & _).
  rewrite E, all_in_app, !str_app_cons in A. cbn in A.
  rewrite !andb_false_r in A. discriminate A.
Qed.

(** [post_id] is stable: on a notification whose [messageId] is what
    [post_id] returned for another one, it returns the same text. *)
Theorem post_id_idempotent (n n' : Notification.t) (s w : string) :
  Notification.data n !! "messageId" = Some (VStr s) ->
  Notification.post_id n = Ok (VStr w) ->
  Notification.data n' !! "messageId" = Some (VStr w) ->
  Notification.post_id n' = Ok (VStr w).
Proof.
  intros E R E'.
  destruct (post_id_ok_inv n s (VStr w) E R) as (m & [= ->] & [Hp | [_ Hd]]).
  - destruct (search_from_some _ pattern_finds_longest s 0 m Hp)
      as (_ & (_ & _ & L) & _).
    apply lang_pattern in L as (d & ds & Ew & D & N & A).
    rewrite Ew in *. apply (post_id_pattern_match n' _ _ E').
    assert (F : first_match Notification.pattern
                  ("" ++ String d (String "-" (ds ++ "")))
                  (String d (String "-" ds))).
    { apply first_match_at_first_hyphen; try assumption; [|reflexivity].
      intros (a & b & Eab). destruct a; discriminate Eab. }
    now rewrite str_app_nil_r in F.
  - destruct (search_from_some _ digits_finds_longest s 0 m Hd)
      as (_ & (_ & _ & L) & _).
    apply lang_plus_chr in L as [N A].
    set (w := group0 m) in *.
    apply (post_id_digits_match n' w w E'); [now apply digits_without_pattern|].
    exists "". split.
    + exists "". split; [now rewrite str_app_nil_r|]. now apply lang_plus_chr.
    + intros pre' w' (rest' & Ew & _). split; [cbn; lia|].
      intros Eq. destruct pre'; [|discriminate Eq].
      change ("" ++ w' ++ rest') with (w' ++ rest') in Ew.
      rewrite Ew, str_length_app. lia.
Qed.

Lemma post_id_idempotent_witness :
  Notification.post_id Samples.notification = Ok (VStr "0-12") /\
  Notification.post_id (Samples.with_field "messageId" (VStr "0-12"))
    = Ok (VStr "0-12").
Proof.
  split; [vm_compute; reflexivity|].
  apply (post_id_idempotent Samples.notification
           (Samples.with_field "messageId" (VStr "0-12"))
           "0-12_MEDIA_COMMENT" "0-12");
    vm_compute; reflexivity.
Defined.

(** ** [post_type] on a string *)

Lemma occurs_in_inside (a k b s : string) :
  occurs_in (a ++ k ++ b) s -> occurs_in k s.
Proof.
  intros (before & after & ->). exists (before ++ a), (b ++ after).
  now rewrite !str_app_assoc.
Qed.

Lemma str_contains_inside (a k b s : string) :
  str_contains (a ++ k ++ b) s = true -> str_contains k s = true.
Proof. rewrite !str_contains_spec. apply occurs_in_inside. Qed.

(** Two entries of the table never change the result: [T_FEED_COMMENT]
    occurs wherever [ST_FEED_COMMENT] does and is tried first, and
    [MOMENT_COMMENT] occurs wherever [_MOMENT_COMMENT] does and has the same
    value.  [post_type] is the scan of the other ten entries. *)
Theorem post_type_redundant_markers (n : Notification.t) (s : string) :
  Notification.data n !! "messageId" = Some (VStr s) ->
  Notification.post_type n =
    Notification.post_type_loop n
      [ ("T_FEED_COMMENT", USER_POST_COMMENT);
        ("_MEDIA_COMMENT", MEDIA_COMMENT);
        ("MOMENT_COMMENT", MOMENT_COMMENT);
        ("ARTIST_COMMENT", ARTIST_POST_COMMENT);
        ("ARTIST_POST", POST);
        ("ARTIST_MOMENT", MOMENT);
        ("ARTIST_LIVE_ON_AIR", LIVE);
        ("COMMUNITY_MEDIA", MEDIA);
        ("NOTICE", NOTICE);
        ("COMMUNITY_ANNIVERSARY", BIRTHDAY) ].
Proof.
  intros E. unfold Notification.post_type, Notification.post_types.
  rewrite !(post_type_loop_step _ _ _ _ _ E).
  destruct (str_contains "T_FEED_COMMENT" s) eqn:T; [reflexivity|].
  destruct (str_contains "ST_FEED_COMMENT" s) eqn:ST.
  { apply (str_contains_inside "S" "T_FEED_COMMENT" "") in ST. congruence. }
  destruct (str_contains "_MEDIA_COMMENT" s); [reflexivity|].
  destruct (str_contains "_MOMENT_COMMENT" s) eqn:M; [|reflexivity].
  apply (str_contains_inside "_" "MOMENT_COMMENT" "") in M. now rewrite M.
Qed.

Lemma post_type_redundant_markers_witness :
  Notification.data (Samples.with_field "messageId" (VStr "3-9_FIRST_FEED_COMMENT"))
    !! "messageId" = Some (VStr "3-9_FIRST_FEED_COMMENT") /\
  Notification.post_type (Samples.with_field "messageId" (VStr "3-9_FIRST_FEED_COMMENT"))
    = Ok (Notification.OPostTypes USER_POST_COMMENT).
Proof.
  split; [vm_compute; reflexivity|].
  rewrite (post_type_redundant_markers
             (Samples.with_field "messageId" (VStr "3-9_FIRST_FEED_COMMENT"))
             "3-9_FIRST_FEED_COMMENT" ltac:(vm_compute; reflexivity)).
  vm_compute; reflexivity.
Defined.

Lemma post_type_loop_total (n : Notification.t) (s : string) :
  Notification.data n !! "messageId" = Some (VStr s) ->
  forall items,
    (exists key p, In (key, p) items /\ occurs_in key s /\
       Notification.post_type_loop n items = Ok (Notification.OPostTypes p)) \/
    ((forall k v, In (k, v) items -> ~ occurs_in k s) /\
     Notification.post_type_loop n items
       = Ok (Notification.OValue (VStr "NOT IMPLEMENTED"))).
Proof.
  intros E items. induction items as [|[k v] items IH].
  - right. split; [intros k v []|reflexivity].
  - rewrite (post_type_loop_step _ _ _ _ _ E).
    destruct (str_contains k s) eqn:C.
    + left. exists k, v. split; [now left|]. split; [now apply str_contains_spec|reflexivity].
    + apply str_contains_false in C.
      destruct IH as [(key & p & I & O & R) | (Hnone & R)].
      * left. exists key, p. split; [now right|]. now split.
      * right. split; [|exact R]. intros k' v' [[= <- <-]|I]; [exact C|].
        now apply (Hnone k' v').
Qed.

(** On a string [messageId], [post_type] raises nothing: it returns the
    value of a marker that occurs in the string, or, when no marker occurs,
    the string ["NOT IMPLEMENTED"]. *)
Theorem post_type_total_on_strings (n : Notification.t) (s : string) :
  Notification.data n !! "messageId" = Some (VStr s) ->
  (exists key p, In (key, p) Notification.post_types /\ occurs_in key s /\
     Notification.post_type n = Ok (Notification.OPostTypes p)) \/
  ((forall k v, In (k, v) Notification.post_types -> ~ occurs_in k s) /\
   Notification.post_type n = Ok (Notification.OValue (VStr "NOT IMPLEMENTED"))).
Proof. intros E. now apply post_type_loop_total. Qed.

Lemma post_type_total_on_strings_witness :
  Notification.data Samples.notification !! "messageId"
    = Some (VStr "0-12_MEDIA_COMMENT") /\
  ((exists key p, In (key, p) Notification.post_types /\
      occurs_in key "0-12_MEDIA_COMMENT" /\
      Notification.post_type Samples.notification
        = Ok (Notification.OPostTypes p)) \/
   ((forall k v, In (k, v) Notification.post_types ->
       ~ occurs_in k "0-12_MEDIA_COMMENT") /\
    Notification.post_type Samples.notification
      = Ok (Notification.OValue (VStr "NOT IMPLEMENTED")))).
Proof.
  split; [vm_compute; reflexivity|].
  apply (post_type_total_on_strings Samples.notification "0-12_MEDIA_COMMENT").
  vm_compute; reflexivity.
Defined.

(** ** The guard of [author_id] *)

(** The values that an [if] takes for false. *)
Lemma truthy_false (v : value) :
  truthy v = false <->
  v = VNone \/ v = VBool false \/ v = VInt 0 \/ v = VStr "" \/
  v = VList [] \/ v = VDict ∅.
Proof.
  destruct v as [|b|z|s|l|m]; cbn; split; intros H;
    repeat match goal with
           | H : _ \/ _ |- _ => destruct H as [H|H]
           end;
    try discriminate H; try tauto.
  - subst. tauto.
  - injection H as ->. reflexivity.
  - apply negb_false_iff, Z.eqb_eq in H. subst. tauto.
  - injection H as ->. reflexivity.
  - apply negb_false_iff, String.eqb_eq in H. subst. tauto.
  - injection H as ->. reflexivity.
  - destruct l; [tauto | discriminate H].
  - injection H as ->. reflexivity.
  - apply negb_false_iff, bool_decide_eq_true in H. subst. tauto.
  - injection H as ->. apply negb_false_iff, bool_decide_eq_true. reflexivity.
Qed.

(** [author_id] is [None] whenever [authors] is a value that counts as
    false ([None], [False], [0], the empty string, list or dict).  When it
    raises, [authors] counts as true and the error is a [TypeError] or a
    [KeyError]: the guard leaves no empty sequence to index, so [IndexError]
    is never raised. *)
Theorem author_id_guard (n : Notification.t) :
  (forall v, Notification.data n !! "authors" = Some v ->
     v = VNone \/ v = VBool false \/ v = VInt 0 \/ v = VStr "" \/
     v = VList [] \/ v = VDict ∅ ->
     Notification.author_id n = Ok VNone) /\
  (forall e, Notification.author_id n = Raise e ->
     (exists v, Notification.data n !! "authors" = Some v /\ truthy v = true) /\
     (e = TypeError \/ exists key, e = KeyError key) /\
     e <> IndexError).
Proof.
  split.
  - intros v E F. apply truthy_false in F.
    unfold Notification.author_id, dict_get. now rewrite E, F.
  - intros e R. unfold Notification.author_id, dict_get, getitem in R.
    cbn [bind subscript] in R.
    destruct (Notification.data n !! "authors") as [v|] eqn:E;
      [|discriminate R].
    destruct (truthy v) eqn:T; [|discriminate R].
    split; [now exists v|].
    cbn [bind] in R.
    assert (G : e = TypeError \/ exists key, e = KeyError key).
    { destruct v as [|b|z|s|l|m];
        cbn [subscript bind int_of_index hashable] in R.
      - injection R as <-. now left.
      - injection R as <-. now left.
      - injection R as <-. now left.
      - destruct s as [|c s]; [discriminate T|]. cbn in R.
        injection R as <-. now left.
      - destruct l as [|x l]; [discriminate T|].
        change (seq_index (x :: l) 0) with (Ok x) in R. cbn [bind] in R.
        destruct x as [| | | | |m]; cbn [subscript int_of_index] in R;
          try (injection R as <-; now left).
        destruct (m !! "memberId"); [discriminate R|].
        injection R as <-. right. now eexists.
      - injection R as <-. right. now eexists. }
    split; [exact G|]. destruct G as [->|[key ->]]; discriminate.
Qed.

Lemma author_id_guard_witness :
  Notification.data (Samples.with_field "authors" VNone) !! "authors" = Some VNone /\
  Notification.author_id (Samples.with_field "authors" VNone) = Ok VNone /\
  Notification.author_id (Samples.with_field "authors" (VStr "abc")) = Raise TypeError /\
  (exists v,
     Notification.data (Samples.with_field "authors" (VStr "abc")) !! "authors"
       = Some v /\ truthy v = true).
Proof.
  split; [vm_compute; reflexivity|]. split.
  - apply (proj1 (author_id_guard (Samples.with_field "authors" VNone)) VNone);
      [vm_compute; reflexivity | now left].
  - assert (R : Notification.author_id (Samples.with_field "authors" (VStr "abc"))
                = Raise TypeError) by (vm_compute; reflexivity).
    split; [exact R|].
    apply (proj2 (author_id_guard (Samples.with_field "authors" (VStr "abc")))
             TypeError R).
Defined.

(** ** Equality and hashing on hashable identifiers *)

Lemma b2z_inj (x y : bool) : Z.b2z x = Z.b2z y -> x = y.
Proof. destruct x, y; cbn; congruence. Qed.

Ltac eqb_to_eq :=
  repeat match goal with
         | H : Z.eqb _ _ = true |- _ => apply Z.eqb_eq in H
         | H : Bool.eqb _ _ = true |- _ => apply Bool.eqb_prop in H
         | H : String.eqb _ _ = true |- _ => apply String.eqb_eq in H
         | H : Z.b2z _ = Z.b2z _ |- _ => apply b2z_inj in H
         end.

Lemma py_eq_refl_hashable (v : value) : hashable v = true -> py_eq v v = true.
Proof.
  destruct v; cbn; intros H; try discriminate H; try reflexivity.
  - now destruct b.
  - apply Z.eqb_refl.
  - apply String.eqb_refl.
Qed.

Lemma py_eq_sym_hashable (a b : value) :
  hashable a = true -> py_eq a b = py_eq b a.
Proof.
  destruct a, b; cbn; intros H; try discriminate H; try reflexivity.
  - now destruct b, b0.
  - apply Z.eqb_sym.
  - apply Z.eqb_sym.
  - apply Z.eqb_sym.
  - apply String.eqb_sym.
Qed.

Lemma py_eq_trans_hashable (a b c : value) :
  hashable b = true ->
  py_eq a b = true -> py_eq b c = true -> py_eq a c = true.
Proof.
  destruct b; cbn [hashable]; intros H; try discriminate H;
    destruct a; cbn; intros Hab; try discriminate Hab;
    destruct c; cbn; intros Hbc; try discriminate Hbc;
    eqb_to_eq; subst; eqb_to_eq; subst;
    try reflexivity;
    try apply Z.eqb_refl; try apply String.eqb_refl;
    try apply Bool.eqb_reflx.
Qed.

(** On notifications whose [id] is hashable ([None], a boolean, an integer
    or a string) [==] is an equivalence: reflexive, symmetric and transitive;
    and [hash] succeeds on them. *)
Theorem eq_equivalence_on_hashable_ids `{BuiltinHash} (n1 n2 n3 : Notification.t) :
  hashable (Notification.id n1) = true ->
  hashable (Notification.id n2) = true ->
  Notification.__eq__ n1 (Notification.ONotification n1) = Ok true /\
  Notification.__eq__ n1 (Notification.ONotification n2)
    = Notification.__eq__ n2 (Notification.ONotification n1) /\
  (Notification.__eq__ n1 (Notification.ONotification n2) = Ok true ->
   Notification.__eq__ n2 (Notification.ONotification n3) = Ok true ->
   Notification.__eq__ n1 (Notification.ONotification n3) = Ok true) /\
  exists h, Notification.__hash__ n1 = Ok h.
Proof.
  intros H1 H2. cbn [Notification.__eq__]. split; [|split; [|split]].
  - f_equal. now apply py_eq_refl_hashable.
  - f_equal. now apply py_eq_sym_hashable.
  - intros [= E12] [= E23]. f_equal.
    now apply (py_eq_trans_hashable _ (Notification.id n2)).
  - unfold Notification.__hash__.
    destruct (Notification.id n1); try discriminate H1; cbn; eauto.
Qed.

Lemma eq_equivalence_on_hashable_ids_witness :
  hashable (Notification.id Samples.notification) = true /\
  Notification.__eq__ Samples.notification
    (Notification.ONotification (Samples.with_field "title" VNone)) = Ok true /\
  Notification.__eq__ (Samples.with_field "title" VNone)
    (Notification.ONotification Samples.notification) = Ok true.
Proof.
  split; [reflexivity|].
  destruct (@eq_equivalence_on_hashable_ids Samples.sample_hash
              Samples.notification (Samples.with_field "title" VNone)
              Samples.notification eq_refl eq_refl) as (_ & Sym & _).
  split; [reflexivity|]. rewrite <- Sym. reflexivity.
Defined.

(** ** [str] and [repr] *)

Lemma init_message_en (P : gmap string value) (n : Notification.t) :
  Notification.__init__ P = Ok n ->
  walk (VDict P) ["message"; "values"; "en"] = Found (Notification.message_en n).
Proof.
  rewrite init_read. intros H.
  repeat (step_read H; [|discriminate H]).
  inversion H; subst; clear H. cbn [Notification.message_en].
  now apply outcome_ok.
Qed.

(** [str(notification)] is the payload's [message.values.en] when that is a
    string; on a notification built from a payload that has another kind of
    value there, [str] raises [TypeError]. *)
Theorem str_is_english_message (P : gmap string value) (n : Notification.t) :
  Notification.__init__ P = Ok n ->
  (forall s, walk (VDict P) ["message"; "values"; "en"] = Found (VStr s) ->
     str_of_object (Notification.__str__ n) = Ok s) /\
  ((forall s, walk (VDict P) ["message"; "values"; "en"] <> Found (VStr s)) ->
   str_of_object (Notification.__str__ n) = Raise TypeError).
Proof.
  intros I. apply init_message_en in I. unfold Notification.__str__. split.
  - intros s W. rewrite W in I. injection I as <-. reflexivity.
  - intros N. destruct (Notification.message_en n); try reflexivity.
    now destruct (N s).
Qed.

Lemma str_is_english_message_witness :
  Notification.__init__ Samples.payload = Ok Samples.notification /\
  str_of_object (Notification.__str__ Samples.notification) = Ok "e".
Proof.
  split; [vm_compute; reflexivity|].
  apply (proj1 (str_is_english_message Samples.payload Samples.notification
                  ltac:(vm_compute; reflexivity))).
  vm_compute; reflexivity.
Defined.

Lemma uint_text_digits (d : Decimal.uint) :
  all_in Digit (NilEmpty.string_of_uint d) = true.
Proof. induction d; cbn; auto. Qed.

Lemma all_in_weaken (cs cs' : charset) (w : string) :
  (forall c, in_charset cs c = true -> in_charset cs' c = true) ->
  all_in cs w = true -> all_in cs' w = true.
Proof.
  intros M. induction w as [|c w IH]; [reflexivity|]. cbn.
  rewrite !andb_true_iff. intros [C W]. split; [now apply M | now apply IH].
Qed.

(** The text of an integer is made of digits and [-]. *)
Lemma str_of_int_chars (z : Z) :
  all_in (Class [Digit; Lit "-"]) (str_of_int z) = true.
Proof.
  assert (U : forall d, all_in (Class [Digit; Lit "-"]) (NilZero.string_of_uint d) = true).
  { intros d. apply (all_in_weaken Digit).
    - intros c C. cbn in C |- *. now rewrite C.
    - destruct d; try apply uint_text_digits. reflexivity. }
  unfold str_of_int. destruct (Z.to_int z); cbn [NilZero.string_of_int]; [apply U|].
  cbn [all_in]. now rewrite U.
Qed.

(** Different integers have different texts. *)
Lemma str_of_int_inj (i j : Z) : str_of_int i = str_of_int j -> i = j.
Proof.
  assert (N : forall z, Z.to_int z <> Decimal.Pos Decimal.Nil /\
                        Z.to_int z <> Decimal.Neg Decimal.Nil).
  { intros [|p|p]; cbn; split; try discriminate;
      intros [= E]; now apply (DecimalPos.Unsigned.to_uint_nonnil p). }
  unfold str_of_int. intros E. apply DecimalZ.to_int_inj.
  assert (Eo : Some (Z.to_int i) = Some (Z.to_int j)).
  { rewrite <- (NilZero.isi (Z.to_int i)), <- (NilZero.isi (Z.to_int j));
      try apply N. now rewrite E. }
  now injection Eo.
Qed.

Lemma str_app_inj_l (a x y : string) : a ++ x = a ++ y -> x = y.
Proof.
  induction a as [|c a IH]; [trivial|].
  rewrite !str_app_cons. intros [= E]. now apply IH.
Qed.

(** Two texts over a character set, each followed by a character outside
    the set, end at the same place. *)
Lemma str_split_at (cs : charset) (c : ascii) (a b x y : string) :
  all_in cs a = true -> all_in cs b = true -> in_charset cs c = false ->
  a ++ String c x = b ++ String c y -> a = b /\ x = y.
Proof.
  intros Aa Ab C. revert b Ab.
  induction a as [|ca a IH]; intros [|cb b] Ab E.
  - now injection E.
  - rewrite str_app_cons in E. injection E as -> _.
    cbn in Ab. rewrite C in Ab. discriminate Ab.
  - rewrite str_app_cons in E. injection E as -> _.
    cbn in Aa. rewrite C in Aa. discriminate Aa.
  - rewrite !str_app_cons in E. injection E as -> E.
    cbn in Aa, Ab. apply andb_true_iff in Aa as [_ Aa].
    apply andb_true_iff in Ab as [_ Ab].
    destruct (IH Aa b Ab E) as [-> ->]. now split.
Qed.

(** For integer identifiers and string messages, [repr] tells notifications
    apart: equal texts come from the same [id] and the same English
    message. *)
Theorem repr_determines_id_and_message `{BuiltinRepr}
    (n n' : Notification.t) (i j : Z) (m m' : string) :
  Notification.id n = VInt i -> Notification.id n' = VInt j ->
  Notification.message_en n = VStr m -> Notification.message_en n' = VStr m' ->
  Notification.__repr__ n = "Notification notification_id=" ++ str_of_int i
                              ++ ", message=" ++ m /\
  (Notification.__repr__ n = Notification.__repr__ n' -> i = j /\ m = m').
Proof.
  intros Ei Ej Em Em'. unfold Notification.__repr__.
  rewrite Ei, Ej, Em, Em'. cbn [fstring_field]. split; [reflexivity|].
  intros E. apply str_app_inj_l in E.
  change (", message=" ++ m) with (String "," (" message=" ++ m)) in E.
  change (", message=" ++ m') with (String "," (" message=" ++ m')) in E.
  apply (str_split_at (Class [Digit; Lit "-"])) in E as [Es Emm];
    [| apply str_of_int_chars | apply str_of_int_chars | reflexivity].
  split; [now apply str_of_int_inj | now apply str_app_inj_l in Emm].
Qed.

Lemma repr_determines_id_and_message_witness :
  Notification.id Samples.notification = VInt 7 /\
  Notification.message_en Samples.notification = VStr "e" /\
  @Notification.__repr__ Samples.sample_repr Samples.notification
    = "Notification notification_id=7, message=e".
Proof.
  split; [reflexivity|]. split; [reflexivity|].
  apply (proj1 (@repr_determines_id_and_message Samples.sample_repr
                  Samples.notification Samples.notification 7 7 "e" "e"
                  eq_refl eq_refl eq_refl eq_refl)).
Defined.

(** ** [Live] *)

(** A [Live] is constructed exactly when the base class accepts the payload
    and the payload has a value at [extension.mediaInfo.chat.messageCount];
    the base class runs first, so its error is the one that is raised. *)
Theorem live_init_succeeds_iff {WeverseMedia : Type}
    (super : gmap string value -> result WeverseMedia) (P : gmap string value) :
  ((exists l, Live.__init__ super P = Ok l) <->
   (exists b, super P = Ok b) /\
   exists v, walk (VDict P) message_count_path = Found v) /\
  (forall e, super P = Raise e -> Live.__init__ super P = Raise e).
Proof.
  assert (R : Live.__init__ super P =
              let* b := super P in
              let* v := read P message_count_path in
              Ok {| Live.base := b; Live.message_count := v |}).
  { unfold read, message_count_path. rewrite <- getitem_walk. reflexivity. }
  rewrite R. clear R. unfold read. split; [split|].
  - intros [l E]. destruct (super P) as [b|]; [|discriminate E].
    cbn [bind] in E.
    destruct (walk (VDict P) message_count_path) as [v| |]; try discriminate E.
    split; [now exists b | now exists v].
  - intros [[b ->] [v ->]]. eexists. reflexivity.
  - intros e ->. reflexivity.
Qed.

Lemma live_init_succeeds_iff_witness :
  (exists b, Samples.media__init__ Samples.live_payload = Ok b) /\
  (exists v, walk (VDict Samples.live_payload) message_count_path = Found v) /\
  exists l, Live.__init__ Samples.media__init__ Samples.live_payload = Ok l.
Proof.
  assert (B : exists b, Samples.media__init__ Samples.live_payload = Ok b)
    by (eexists; vm_compute; reflexivity).
  assert (W : exists v, walk (VDict Samples.live_payload) message_count_path = Found v)
    by (eexists; vm_compute; reflexivity).
  split; [exact B|]. split; [exact W|].
  apply (proj2 (proj1 (live_init_succeeds_iff Samples.media__init__
                         Samples.live_payload))).
  now split.
Defined.

(** ** Keys that the constructor does not read *)

Lemma read_insert_ne (P : gmap string value) (key k : string) (v : value)
    (path : list string) :
  k <> key -> read (<[key := v]> P) (k :: path) = read P (k :: path).
Proof.
  intros N. unfold read. cbn [walk]. now rewrite lookup_insert_ne.
Qed.

Lemma dict_get_insert_ne (P : gmap string value) (key k : string) (v : value) :
  k <> key -> dict_get (<[key := v]> P) k = dict_get P k.
Proof. intros N. unfold dict_get. now rewrite lookup_insert_ne. Qed.

(** Setting a key that the constructor does not read ([messageId],
    [authors], or any other) changes nothing but the stored payload: the
    construction fails with the same error or yields the same slots. *)
Theorem init_ignores_other_keys (P : gmap string value) (key : string) (v : value) :
  ~ In key [ "activityId"; "read"; "title"; "message"; "logoImageUrl";
             "imageUrl"; "webUrl"; "time"; "count"; "community" ] ->
  (forall e, Notification.__init__ P = Raise e ->
             Notification.__init__ (<[key := v]> P) = Raise e) /\
  (forall n, Notification.__init__ P = Ok n ->
     Notification.__init__ (<[key := v]> P) =
       Ok {| Notification.data := <[key := v]> P;
             Notification.id := Notification.id n;
             Notification.is_read := Notification.is_read n;
             Notification.title := Notification.title n;
             Notification.message_ko := Notification.message_ko n;
             Notification.message_ja := Notification.message_ja n;
             Notification.message_en := Notification.message_en n;
             Notification.logo_image_url := Notification.logo_image_url n;
             Notification.image_url := Notification.image_url n;
             Notification.web_url := Notification.web_url n;
             Notification.time_created := Notification.time_created n;
             Notification.count := Notification.count n;
             Notification.community_id := Notification.community_id n |}).
Proof.
  intros Hn.
  rewrite (init_read (<[key := v]> P)), (init_read P).
  rewrite !read_insert_ne by (intros E; apply Hn; rewrite <- E; cbn; tauto).
  rewrite dict_get_insert_ne by (intros E; apply Hn; rewrite <- E; cbn; tauto).
  split.
  - intros e H.
    repeat (step_read H; [|exact H]).
    discriminate H.
  - intros n H.
    repeat (step_read H; [|discriminate H]).
    injection H as <-. reflexivity.
Qed.

Lemma init_ignores_other_keys_witness :
  Notification.__init__ Samples.payload = Ok Samples.notification /\
  Notification.__init__ (<["messageId" := VStr "NOTICE123"]> Samples.payload)
    = Ok (Samples.with_field "messageId" (VStr "NOTICE123")).
Proof.
  split; [vm_compute; reflexivity|].
  apply (proj2 (init_ignores_other_keys Samples.payload "messageId" (VStr "NOTICE123")
                  ltac:(cbn; intuition discriminate))
           Samples.notification).
  vm_compute; reflexivity.
Defined.
